(** * Fed batch bioreactor: the derivative function, the scenario sweep and
      the plotting cell

    A shallow embedding of the code cells of
    [1_Dynamics/2_Time_domain_simulation/Fed batch bioreactor.ipynb].

    Numbers.  The notebook is read twice.

    - Module [Nb] takes the arithmetic of [dxdt] as arithmetic of the reals:
      it gives the differential equation that the lines of [dxdt] write
      down, and it carries the namespace, the sweep and the plotting cell,
      none of which computes with a number.  Nothing stated on [Nb] is a
      statement about the digits a run prints.

    - Module [Py] takes the numbers as Python has them: a Python [int], a
      Python [float] or a NumPy [float64], the last two being IEEE binary64
      numbers with every operation rounded to nearest even.  A division of
      Python numbers by zero raises [ZeroDivisionError], the same division
      on a NumPy number warns and yields an infinity or a NaN, and a Python
      [int] that is too large for a double raises [OverflowError] when it
      meets a float.  What is said of the values [dxdt] returns is said on
      [Py].

    Effects.  [dxdt] reads module-level names at call time, and the sweep
    rebinds one of them, so the module namespace is an explicit record that
    is threaded through the cells; an exception leaves the namespace as it
    was when it was raised.

    The ODE solver [scipy.integrate.solve_ivp] is a library the notebook
    imports.  It is a parameter of the development: it receives the
    callback, the time span, the initial state and the evaluation grid, and
    returns a result object or raises.  A solver call that does not come
    back is outside what is modelled: what is stated of a sweep is stated of
    solver calls that return or raise. *)

From Stdlib Require Import Reals Lra Lia List ZArith FunctionalExtensionality.
From Stdlib Require Import SpecFloat PrimFloat FloatOps.
From Stdlib Require String.
Set Warnings "-inexact-float".
Import ListNotations.
Open Scope R_scope.

(** ** Exceptions and results *)

Inductive exn : Type :=
| ZeroDivisionError
| ValueError
| OverflowError
| LibraryError (name : String.string).

Inductive result (A : Type) : Type :=
| Ok (a : A)
| Raise (e : exn).
Arguments Ok {A} a.
Arguments Raise {A} e.

Definition bind {A B} (m : result A) (k : A -> result B) : result B :=
  match m with
  | Ok a => k a
  | Raise e => Raise e
  end.

Notation "x <- m ;; k" := (bind m (fun x => k))
  (at level 61, m at next level, right associativity).

(** Python's [a / b], the numbers taken as reals. *)
Definition truediv (a b : R) : result R :=
  if Req_dec_T b 0 then Raise ZeroDivisionError else Ok (a / b).

(** What [solve_ivp] returns: the sample times, the samples (one row per
    state variable), and the solver's own report ([status] is -1 when a step failed, 0 when
    the end of the span was reached, 1 when an event stopped the run). *)
Record OdeResult : Type := mkOdeResult {
  sol_t : list R;
  sol_y : list (list R);
  status : Z;
  success : bool
}.

(** [numpy.linspace(start, stop, num)] for [num >= 2], the numbers taken as
    reals. *)
Definition linspace (start stop : R) (num : nat) : list R :=
  map (fun i => start + INR i * ((stop - start) / INR (num - 1))) (seq 0 num).

(** ** The notebook *)

Module Nb.

(** The module-level names of the notebook.  [out] is unbound until the
    sweep assigns it. *)
Record globals : Type := mkGlobals {
  mu_max : R;
  K_s : R;
  Y_xs : R;
  Y_px : R;
  X : R;
  S : R;
  P : R;
  V : R;
  x0 : list R;
  F : R;
  S_f : R;
  tspan : list R;
  tsmooth : list R;
  Fs : list R;
  results : list OdeResult;
  out : option OdeResult
}.

(** The namespace once the cells above the sweep have run, with the list of
    feed rates of the cell [Fs = ...] left open. *)
Definition before_sweep (scenarios : list R) : globals :=
  {| mu_max := 0.2;
     K_s := 1.0;
     Y_xs := 0.5;
     Y_px := 0.2;
     X := 0.05;
     S := 10;
     P := 0;
     V := 1;
     x0 := [0.05; 10; 0; 1];
     F := 0.05;
     S_f := 10;
     tspan := [0; 30];
     tsmooth := linspace 0 30 50;
     Fs := scenarios;
     results := [];
     out := None |}.

(** The notebook as written: [Fs = [0.05, 0.02]]. *)
Definition notebook : globals := before_sweep [0.05; 0.02].

(** Rebinding of [F] by the [for] statement. *)
Definition bind_F (v : R) (g : globals) : globals :=
  {| mu_max := mu_max g; K_s := K_s g; Y_xs := Y_xs g; Y_px := Y_px g;
     X := X g; S := S g; P := P g; V := V g; x0 := x0 g;
     F := v; S_f := S_f g;
     tspan := tspan g; tsmooth := tsmooth g; Fs := Fs g;
     results := results g; out := out g |}.

(** [out = ...] followed by [results.append(out)]. *)
Definition bind_out_append (o : OdeResult) (g : globals) : globals :=
  {| mu_max := mu_max g; K_s := K_s g; Y_xs := Y_xs g; Y_px := Y_px g;
     X := X g; S := S g; P := P g; V := V g; x0 := x0 g;
     F := F g; S_f := S_f g;
     tspan := tspan g; tsmooth := tsmooth g; Fs := Fs g;
     results := results g ++ [o]; out := Some o |}.

(** The first statement of [dxdt], [mu = mu_max * S / (K_s + S)], as a
    function of the local [S]. *)
Definition mu (g : globals) (S : R) : result R :=
  truediv (mu_max g * S) (K_s g + S).

(** [def dxdt(t, x)], the arithmetic taken as that of the reals ([Py.dxdt]
    has it in Python's numbers).  The unpacking [[X, S, P, V] = x] binds
    locals, which hide the module-level [X], [S], [P], [V]; the other names
    are read from the namespace.  Divisions are taken in the order Python
    evaluates them. *)
Definition dxdt (g : globals) (t : R) (x : list R) : result (list R) :=
  match x with
  | [X; S; P; V] =>
      mu <- mu g S ;;
      let rg := mu * X in
      let rp := Y_px g * rg in
      let dVdt := F g in
      iV <- truediv 1 V ;;
      let dXdt := iV * (V * rg - dVdt * X) in
      iV' <- truediv 1 V ;;
      let dPdt := iV' * (V * rp - dVdt * P) in
      iV'' <- truediv 1 V ;;
      iY <- truediv 1 (Y_xs g) ;;
      let dSdt := iV'' * (F g * S_f g - iY * V * rg - dVdt * S) in
      Ok [dXdt; dSdt; dPdt; dVdt]
  | _ => Raise ValueError
  end.

(** ** The sweep

    A cell is a computation on the namespace that returns normally or
    raises; in both cases the namespace it leaves is observable. *)
Definition cell (A : Type) : Type := globals -> result A * globals.

Definition cell_bind {A B} (c : cell A) (k : A -> cell B) : cell B :=
  fun g =>
    match c g with
    | (Ok a, g') => k a g'
    | (Raise e, g') => (Raise e, g')
    end.

Definition cell_ret {A} (a : A) : cell A := fun g => (Ok a, g).

(** [for v in l: body]: the loop variable is rebound by the caller-supplied
    [body]; an exception ends the loop. *)
Fixpoint for_in (l : list R) (body : R -> cell unit) : cell unit :=
  match l with
  | [] => cell_ret tt
  | v :: l' => cell_bind (body v) (fun _ => for_in l' body)
  end.

Section Sweep.

(** [solve_ivp(fun, t_span, y0, t_eval=...)].  The callback is the
    function that [dxdt] denotes in the namespace of the call: the solver
    runs to completion inside the call and writes no notebook name. *)
Variable solve_ivp :
  (R -> list R -> result (list R)) -> list R -> list R -> list R ->
  result OdeResult.

(** The call [scipy.integrate.solve_ivp(dxdt, tspan, x0, t_eval=tsmooth)]. *)
Definition integrate (g : globals) : result OdeResult :=
  solve_ivp (dxdt g) (tspan g) (x0 g) (tsmooth g).

(** One turn of the loop, [F] already being the loop variable. *)
Definition loop_body (v : R) : cell unit :=
  fun g =>
    let g1 := bind_F v g in
    match integrate g1 with
    | Ok o => (Ok tt, bind_out_append o g1)
    | Raise e => (Raise e, g1)
    end.

(** [for F in Fs: out = solve_ivp(...); results.append(out)]. *)
Definition sweep : cell unit :=
  fun g => for_in (Fs g) loop_body g.

End Sweep.

End Nb.

(** ** The model of section 4.1 of the specification

    The algorithm as the specification writes it: every concentration
    balance is one quotient by [V].  A quotient by zero has no value. *)

Definition quot (a b : R) : option R :=
  if Req_dec_T b 0 then None else Some (a / b).

Definition obind {A B} (m : option A) (k : A -> option B) : option B :=
  match m with
  | Some a => k a
  | None => None
  end.

Definition spec_derivative (mumax Ks Yxs Ypx F Sf : R) (X S P V : R)
  : option (list R) :=
  obind (quot (mumax * S) (Ks + S)) (fun mu =>
  let r_g := mu * X in
  let r_p := Ypx * r_g in
  let dV := F in
  obind (quot (V * r_g - F * X) V) (fun dX =>
  obind (quot (V * r_p - F * P) V) (fun dP =>
  obind (quot 1 Yxs) (fun iY =>
  obind (quot (F * Sf - iY * V * r_g - F * S) V) (fun dS =>
  Some [dX; dS; dP; dV]))))).

(** What a call returned, forgetting which exception was raised. *)
Definition returned {A} (r : result A) : option A :=
  match r with
  | Ok a => Some a
  | Raise _ => None
  end.

(** ** Reading the namespace *)

(** Two namespaces that bind alike the six names [dxdt] reads. *)
Definition same_model (g1 g2 : Nb.globals) : Prop :=
  Nb.mu_max g1 = Nb.mu_max g2 /\ Nb.K_s g1 = Nb.K_s g2 /\
  Nb.Y_xs g1 = Nb.Y_xs g2 /\ Nb.Y_px g1 = Nb.Y_px g2 /\
  Nb.F g1 = Nb.F g2 /\ Nb.S_f g1 = Nb.S_f g2.

(** Two namespaces that bind alike what one turn of the loop reads once it
    has rebound [F]. *)
Definition same_setup (g1 g2 : Nb.globals) : Prop :=
  Nb.mu_max g1 = Nb.mu_max g2 /\ Nb.K_s g1 = Nb.K_s g2 /\
  Nb.Y_xs g1 = Nb.Y_xs g2 /\ Nb.Y_px g1 = Nb.Y_px g2 /\
  Nb.S_f g1 = Nb.S_f g2 /\
  Nb.tspan g1 = Nb.tspan g2 /\ Nb.x0 g1 = Nb.x0 g2 /\
  Nb.tsmooth g1 = Nb.tsmooth g2.

(** The solver returns [o] for the scenario [v] of the configuration [g]. *)
Definition answer
  (solve_ivp : (R -> list R -> result (list R)) -> list R -> list R ->
               list R -> result OdeResult)
  (g : Nb.globals) (v : R) (o : OdeResult) : Prop :=
  Nb.integrate solve_ivp (Nb.bind_F v g) = Ok o.

(** What the sweep leaves in [results] when it returns. *)
Definition sweep_results
  (solve_ivp : (R -> list R -> result (list R)) -> list R -> list R ->
               list R -> result OdeResult)
  (g : Nb.globals) : result (list OdeResult) :=
  match Nb.sweep solve_ivp g with
  | (Ok _, g') => Ok (Nb.results g')
  | (Raise e, _) => Raise e
  end.

(** The namespace after the turns for [vs] have returned [os]. *)
Definition turn (g : Nb.globals) (vo : R * OdeResult) : Nb.globals :=
  Nb.bind_out_append (snd vo) (Nb.bind_F (fst vo) g).

Definition turns (g : Nb.globals) (vs : list R) (os : list OdeResult)
  : Nb.globals :=
  fold_left turn (combine vs os) g.

(** ** A small solver to run the sweep with

    One explicit Euler step with linear dense output: the time span is
    unpacked as [t0, tf], the callback is evaluated once, at the initial
    point, and every requested time gets [y0 + (t - t0) f(t0, y0)].  An
    exception of the callback leaves the solver, as it leaves
    [solve_ivp]. *)
Definition one_step_solver
  (f : R -> list R -> result (list R)) (t_span y0 t_eval : list R)
  : result OdeResult :=
  match t_span with
  | [t0; tf] =>
      d <- f t0 y0 ;;
      Ok {| sol_t := t_eval;
            sol_y := map (fun yd => map (fun t => fst yd + (t - t0) * snd yd) t_eval)
                         (combine y0 d);
            status := 0%Z;
            success := true |}
  | _ => Raise ValueError
  end.

(** ** Trajectories

    Four functions of time solve the model on [[a, b]] when at every time of
    the interval [dxdt] returns, and returns their derivatives. *)
Definition solves (g : Nb.globals) (a b : R) (yX yS yP yV : R -> R) : Prop :=
  forall t, a <= t <= b ->
    exists dX dS dP dV,
      Nb.dxdt g t [yX t; yS t; yP t; yV t] = Ok [dX; dS; dP; dV] /\
      derivable_pt_lim yX t dX /\ derivable_pt_lim yS t dS /\
      derivable_pt_lim yP t dP /\ derivable_pt_lim yV t dV.

(** ** The configuration errors of the specification (section 7)

    The notebook has no such check; these predicates only state what the
    specification asks for. *)
Fixpoint increasing (l : list R) : Prop :=
  match l with
  | a :: ((b :: _) as l') => a < b /\ increasing l'
  | _ => True
  end.

Definition invalid_configuration (g : Nb.globals) : Prop :=
  Nb.mu_max g <= 0 \/ Nb.K_s g <= 0 \/ Nb.Y_xs g <= 0 \/
  (exists c, In c (Nb.x0 g) /\ c < 0) \/
  nth 3 (Nb.x0 g) 1 = 0 \/
  (exists v, In v (Nb.Fs g) /\ v < 0) \/ Nb.S_f g < 0 \/
  Nb.Fs g = [] \/
  ~ increasing (Nb.tspan g) \/ ~ increasing (Nb.tsmooth g).

(** "Raised before any integration starts": the sweep raises whatever the
    solver would have done. *)
Definition rejected_eagerly (g : Nb.globals) : Prop :=
  forall solve_ivp, exists e, fst (Nb.sweep solve_ivp g) = Raise e.

(** The notebook with another initial state. *)
Definition with_x0 (y0 : list R) (g : Nb.globals) : Nb.globals :=
  {| Nb.mu_max := Nb.mu_max g; Nb.K_s := Nb.K_s g; Nb.Y_xs := Nb.Y_xs g;
     Nb.Y_px := Nb.Y_px g;
     Nb.X := Nb.X g; Nb.S := Nb.S g; Nb.P := Nb.P g; Nb.V := Nb.V g;
     Nb.x0 := y0;
     Nb.F := Nb.F g; Nb.S_f := Nb.S_f g;
     Nb.tspan := Nb.tspan g; Nb.tsmooth := Nb.tsmooth g; Nb.Fs := Nb.Fs g;
     Nb.results := Nb.results g; Nb.out := Nb.out g |}.

(** The namespace [g] with [F], [results] and [out] bound anew and every
    other name as in [g]. *)
Definition rebound (v : R) (rs : list OdeResult) (o : option OdeResult)
  (g : Nb.globals) : Nb.globals :=
  {| Nb.mu_max := Nb.mu_max g; Nb.K_s := Nb.K_s g; Nb.Y_xs := Nb.Y_xs g;
     Nb.Y_px := Nb.Y_px g;
     Nb.X := Nb.X g; Nb.S := Nb.S g; Nb.P := Nb.P g; Nb.V := Nb.V g;
     Nb.x0 := Nb.x0 g;
     Nb.F := v; Nb.S_f := Nb.S_f g;
     Nb.tspan := Nb.tspan g; Nb.tsmooth := Nb.tsmooth g; Nb.Fs := Nb.Fs g;
     Nb.results := rs; Nb.out := o |}.

(** ** The plotting cell

    A Python [dict] is kept as the list of its items in insertion order:
    assigning to a key that is present replaces the value in place, a new
    key is added at the end, and subscripting with an absent key raises
    [KeyError]. *)

Import String.StringSyntax.
Delimit Scope string_scope with str.

Definition dict (A : Type) : Type := list (String.string * A).

Fixpoint dict_set {A} (k : String.string) (a : A) (d : dict A) : dict A :=
  match d with
  | [] => [(k, a)]
  | (k', a') :: d' =>
      if String.eqb k k' then (k, a) :: d' else (k', a') :: dict_set k a d'
  end.

Fixpoint dict_get {A} (k : String.string) (d : dict A) : option A :=
  match d with
  | [] => None
  | (k', a') :: d' => if String.eqb k k' then Some a' else dict_get k d'
  end.

(** A dict display or comprehension: the items are set from left to
    right. *)
Definition dict_of {A} (items : list (String.string * A)) : dict A :=
  fold_left (fun d ka => dict_set (fst ka) (snd ka) d) items [].

(** How the plotting cell ends: normally, with the [KeyError] of a
    subscript, or with the [ValueError] that [plot] raises for an [x] and a
    [y] of different lengths. *)
Inductive drawn (A : Type) : Type :=
| Done (a : A)
| KeyError (key : String.string)
| PlotValueError (nx ny : nat).
Arguments Done {A} a.
Arguments KeyError {A} key.
Arguments PlotValueError {A} nx ny.

(** A matplotlib [Axes], as far as the cell uses it: [plot(x, y)] adds a
    line when [x] and [y] have the same length and raises otherwise,
    [set_ylabel] and [set_xlabel] replace a label. *)
Record Axes : Type := mkAxes {
  lines : list (list R * list R);
  ylabel : option String.string;
  xlabel : option String.string
}.

Definition new_axes : Axes := {| lines := []; ylabel := None; xlabel := None |}.

Definition add_line (x y : list R) (a : Axes) : Axes :=
  {| lines := lines a ++ [(x, y)]; ylabel := ylabel a; xlabel := xlabel a |}.

Definition plot (x y : list R) (a : Axes) : option Axes :=
  if Nat.eqb (length x) (length y) then Some (add_line x y a) else None.

Definition set_ylabel (l : String.string) (a : Axes) : Axes :=
  {| lines := lines a; ylabel := Some l; xlabel := xlabel a |}.

Definition set_xlabel (l : String.string) (a : Axes) : Axes :=
  {| lines := lines a; ylabel := ylabel a; xlabel := Some l |}.

(** The four [Axes] objects that [plt.subplots(2, 2)] creates, by row and
    column, and the figure that holds them. *)
Inductive panel : Type := upper_left | upper_right | lower_left | lower_right.

Record Figure : Type := mkFigure {
  at_upper_left : Axes;
  at_upper_right : Axes;
  at_lower_left : Axes;
  at_lower_right : Axes
}.

Definition subplots_2_2 : Figure :=
  {| at_upper_left := new_axes; at_upper_right := new_axes;
     at_lower_left := new_axes; at_lower_right := new_axes |}.

Definition axes_of (p : panel) (f : Figure) : Axes :=
  match p with
  | upper_left => at_upper_left f
  | upper_right => at_upper_right f
  | lower_left => at_lower_left f
  | lower_right => at_lower_right f
  end.

(** A method call on the object a panel refers to. *)
Definition on_axes (p : panel) (m : Axes -> Axes) (f : Figure) : Figure :=
  match p with
  | upper_left =>
      {| at_upper_left := m (at_upper_left f); at_upper_right := at_upper_right f;
         at_lower_left := at_lower_left f; at_lower_right := at_lower_right f |}
  | upper_right =>
      {| at_upper_left := at_upper_left f; at_upper_right := m (at_upper_right f);
         at_lower_left := at_lower_left f; at_lower_right := at_lower_right f |}
  | lower_left =>
      {| at_upper_left := at_upper_left f; at_upper_right := at_upper_right f;
         at_lower_left := m (at_lower_left f); at_lower_right := at_lower_right f |}
  | lower_right =>
      {| at_upper_left := at_upper_left f; at_upper_right := at_upper_right f;
         at_lower_left := at_lower_left f; at_lower_right := m (at_lower_right f) |}
  end.

(** [names = ['X', 'S', 'P', 'V']] *)
Definition names : list String.string :=
  ["X"; "S"; "P"; "V"]%str.

(** [units = {'X': 'g/L', 'S': 'g/L', 'P': 'g/L', 'V': 'L'}] *)
Definition units : dict String.string :=
  dict_of [("X", "g/L"); ("S", "g/L"); ("P", "g/L"); ("V", "L")]%str.

(** [ax = {}] and the targets of
    [fig, [[ax['X'], ax['P']], [ax['S'], ax['V']]] = plt.subplots(2, 2)],
    assigned from left to right. *)
Definition ax : dict panel :=
  dict_set "V"%str lower_right
    (dict_set "S"%str lower_left
       (dict_set "P"%str upper_right
          (dict_set "X"%str upper_left []))).

(** What the cell works on: the module namespace, whose [F] and [out] are
    the loop variables of the outer loop, the names [var] and [name] that
    the cell binds, and the figure. *)
Record plotting : Type := mkPlotting {
  ns : Nb.globals;
  var : option (dict (list R));
  name : option String.string;
  fig : Figure
}.

(** [for F, out in zip(Fs, results)] binds [F], then [out]. *)
Definition bind_F_out (v : R) (o : OdeResult) (g : Nb.globals) : Nb.globals :=
  {| Nb.mu_max := Nb.mu_max g; Nb.K_s := Nb.K_s g; Nb.Y_xs := Nb.Y_xs g;
     Nb.Y_px := Nb.Y_px g;
     Nb.X := Nb.X g; Nb.S := Nb.S g; Nb.P := Nb.P g; Nb.V := Nb.V g;
     Nb.x0 := Nb.x0 g;
     Nb.F := v; Nb.S_f := Nb.S_f g;
     Nb.tspan := Nb.tspan g; Nb.tsmooth := Nb.tsmooth g; Nb.Fs := Nb.Fs g;
     Nb.results := Nb.results g; Nb.out := Some o |}.

(** The three statements of the inner loop for one [name]; each subscript
    and the call of [plot] may raise, and what was drawn before stays
    drawn. *)
Definition draw_name (o : OdeResult) (v : dict (list R)) (n : String.string)
  (s : plotting) : drawn unit * plotting :=
  let s0 := {| ns := ns s; var := var s; name := Some n; fig := fig s |} in
  match dict_get n ax, dict_get n v with
  | Some p, Some y =>
      match plot (sol_t o) y (axes_of p (fig s0)) with
      | Some a1 =>
          let f1 := on_axes p (fun _ => a1) (fig s0) in
          let s1 := {| ns := ns s0; var := var s0; name := name s0; fig := f1 |} in
          match dict_get n units with
          | Some u =>
              let l := String.append n (String.append " (" (String.append u ")"))%str in
              let f2 := on_axes p (set_ylabel l) f1 in
              let f3 := on_axes p (set_xlabel "Time (hr)"%str) f2 in
              (Done tt, {| ns := ns s1; var := var s1; name := name s1; fig := f3 |})
          | None => (KeyError n, s1)
          end
      | None => (PlotValueError (length (sol_t o)) (length y), s0)
      end
  | _, _ => (KeyError n, s0)
  end.

(** [for name in names: ...] *)
Fixpoint draw_names (o : OdeResult) (v : dict (list R))
  (l : list String.string) (s : plotting) : drawn unit * plotting :=
  match l with
  | [] => (Done tt, s)
  | n :: l' =>
      match draw_name o v n s with
      | (Done _, s') => draw_names o v l' s'
      | (KeyError k, s') => (KeyError k, s')
      | (PlotValueError nx ny, s') => (PlotValueError nx ny, s')
      end
  end.

(** The body of the outer loop: [var = {name: y for name, y in
    zip(names, out.y)}], then the inner loop. *)
Definition draw_result (vo : R * OdeResult) (s : plotting)
  : drawn unit * plotting :=
  let o := snd vo in
  let v := dict_of (combine names (sol_y o)) in
  draw_names o v names
    {| ns := bind_F_out (fst vo) o (ns s); var := Some v;
       name := name s; fig := fig s |}.

(** [for F, out in zip(Fs, results): ...] *)
Fixpoint draw_results (l : list (R * OdeResult)) (s : plotting)
  : drawn unit * plotting :=
  match l with
  | [] => (Done tt, s)
  | vo :: l' =>
      match draw_result vo s with
      | (Done _, s') => draw_results l' s'
      | (KeyError k, s') => (KeyError k, s')
      | (PlotValueError nx ny, s') => (PlotValueError nx ny, s')
      end
  end.

(** The cell from the namespace [g]: the figure is created, then the
    results are drawn.  ([plt.tight_layout()] moves the panels and changes
    none of what is recorded here.) *)
Definition plot_cell (g : Nb.globals) : drawn unit * plotting :=
  draw_results (combine (Nb.Fs g) (Nb.results g))
    {| ns := g; var := None; name := None; fig := subplots_2_2 |}.

(** The line that the result [o] contributes to the panel of the [i]-th
    state variable. *)
Definition line_of (i : nat) (o : OdeResult) : list R * list R :=
  (sol_t o, nth i (sol_y o) []).

(** What one turn of the inner loop does to the [Axes] of a name with unit
    [u] that shows row [i], and what one turn of the outer loop then does to
    the figure. *)
Definition show (n u : String.string) (i : nat) (o : OdeResult) (a : Axes)
  : Axes :=
  set_xlabel "Time (hr)"%str
    (set_ylabel (String.append n (String.append " (" (String.append u ")")))%str
       (add_line (sol_t o) (nth i (sol_y o) []) a)).

Definition show_result (o : OdeResult) (f : Figure) : Figure :=
  {| at_upper_left := show "X" "g/L" 0 o (at_upper_left f);
     at_upper_right := show "P" "g/L" 2 o (at_upper_right f);
     at_lower_left := show "S" "g/L" 1 o (at_lower_left f);
     at_lower_right := show "V" "L" 3 o (at_lower_right f) |}%str.

(** The rows of [y] that the cell draws have one entry per time of [t],
    as the rows of a result of [solve_ivp] have. *)
Definition plottable (o : OdeResult) : Prop :=
  Forall (fun y => length y = length (sol_t o)) (firstn 4 (sol_y o)).

(** A result that the cell can draw in full. *)
Definition drawable (o : OdeResult) : Prop :=
  (4 <= length (sol_y o))%nat /\ plottable o.

(** The pairs that [zip(Fs, results)] yields. *)
Definition zipped (g : Nb.globals) : list (R * OdeResult) :=
  combine (Nb.Fs g) (Nb.results g).

(** ** The numbers of Python

    A double is an IEEE binary64 number; the operations are those of the
    standard, rounded to nearest even. *)

Module Py.

Definition double : Type := spec_float.

Definition fadd : double -> double -> double := SFadd prec emax.
Definition fsub : double -> double -> double := SFsub prec emax.
Definition fmul : double -> double -> double := SFmul prec emax.
Definition fdiv : double -> double -> double := SFdiv prec emax.

(** A float literal of the source: the double nearest to the decimal. *)
Definition lit (f : float) : double := Prim2SF f.

Definition is_zero (d : double) : bool :=
  match d with
  | S754_zero _ => true
  | _ => false
  end.

Definition is_infinite (d : double) : bool :=
  match d with
  | S754_infinity _ => true
  | _ => false
  end.

(** [float(z)]: the double nearest to the integer, an infinity when there is
    none. *)
Definition of_int (z : Z) : double := binary_normalize prec emax z 0 false.

(** The integer as it stands, for the quotient of two integers. *)
Definition exactly (z : Z) : double :=
  match z with
  | Z0 => S754_zero false
  | Zpos p => S754_finite false p 0
  | Zneg p => S754_finite true p 0
  end.

(** A number the code can meet: a Python [int], a Python [float], or a
    NumPy [float64] (an entry of the arrays the solver works on). *)
Inductive num : Type :=
| PyInt (z : Z)
| PyFloat (d : double)
| NpFloat (d : double).

(** The double an operand is taken as when the other operand is a float. *)
Definition as_double (n : num) : result double :=
  match n with
  | PyInt z => if is_infinite (of_int z) then Raise OverflowError else Ok (of_int z)
  | PyFloat d => Ok d
  | NpFloat d => Ok d
  end.

Definition is_numpy (n : num) : bool :=
  match n with
  | NpFloat _ => true
  | _ => false
  end.

(** The result is a NumPy number as soon as one operand is. *)
Definition wrap (a b : num) (d : double) : num :=
  if orb (is_numpy a) (is_numpy b) then NpFloat d else PyFloat d.

(** [a + b], [a - b], [a * b]: exact on two integers, rounded otherwise. *)
Definition arith (zop : Z -> Z -> Z) (fop : double -> double -> double)
  (a b : num) : result num :=
  match a, b with
  | PyInt x, PyInt y => Ok (PyInt (zop x y))
  | _, _ => x <- as_double a ;; y <- as_double b ;; Ok (wrap a b (fop x y))
  end.

Definition add : num -> num -> result num := arith Z.add fadd.
Definition sub : num -> num -> result num := arith Z.sub fsub.
Definition mul : num -> num -> result num := arith Z.mul fmul.

(** [a / b].  Two integers give the double nearest to their quotient; a
    zero divisor raises unless a NumPy number takes part. *)
Definition truediv (a b : num) : result num :=
  match a, b with
  | PyInt x, PyInt y =>
      if Z.eqb y 0 then Raise ZeroDivisionError
      else if is_infinite (fdiv (exactly x) (exactly y)) then Raise OverflowError
           else Ok (PyFloat (fdiv (exactly x) (exactly y)))
  | _, _ =>
      x <- as_double a ;; y <- as_double b ;;
      if orb (is_numpy a) (is_numpy b) then Ok (NpFloat (fdiv x y))
      else if is_zero y then Raise ZeroDivisionError
           else Ok (PyFloat (fdiv x y))
  end.

(** The module-level names that the cells above [dxdt] bind. *)
Record globals : Type := mkGlobals {
  mu_max : num;
  K_s : num;
  Y_xs : num;
  Y_px : num;
  X : num;
  S : num;
  P : num;
  V : num;
  x0 : list num;
  F : num;
  S_f : num
}.

(** The notebook as written: [S], [P], [V] and [S_f] are integers. *)
Definition notebook : globals :=
  {| mu_max := PyFloat (lit 0.2);
     K_s := PyFloat (lit 1.0);
     Y_xs := PyFloat (lit 0.5);
     Y_px := PyFloat (lit 0.2);
     X := PyFloat (lit 0.05);
     S := PyInt 10;
     P := PyInt 0;
     V := PyInt 1;
     x0 := [PyFloat (lit 0.05); PyInt 10; PyInt 0; PyInt 1];
     F := PyFloat (lit 0.05);
     S_f := PyInt 10 |}.

(** [F = v] *)
Definition bind_F (v : num) (g : globals) : globals :=
  {| mu_max := mu_max g; K_s := K_s g; Y_xs := Y_xs g; Y_px := Y_px g;
     X := X g; S := S g; P := P g; V := V g; x0 := x0 g;
     F := v; S_f := S_f g |}.

(** [mu = mu_max * S / (K_s + S)] *)
Definition mu (g : globals) (S : num) : result num :=
  a <- mul (mu_max g) S ;;
  b <- add (K_s g) S ;;
  truediv a b.

(** [def dxdt(t, x)], every operation in the order Python evaluates it. *)
Definition dxdt (g : globals) (t : num) (x : list num) : result (list num) :=
  match x with
  | [X; S; P; V] =>
      mu <- mu g S ;;
      rg <- mul mu X ;;
      rp <- mul (Y_px g) rg ;;
      let dVdt := F g in
      iV <- truediv (PyInt 1) V ;;
      a <- mul V rg ;;
      b <- mul dVdt X ;;
      c <- sub a b ;;
      dXdt <- mul iV c ;;
      iV' <- truediv (PyInt 1) V ;;
      a' <- mul V rp ;;
      b' <- mul dVdt P ;;
      c' <- sub a' b' ;;
      dPdt <- mul iV' c' ;;
      iV'' <- truediv (PyInt 1) V ;;
      p <- mul (F g) (S_f g) ;;
      iY <- truediv (PyInt 1) (Y_xs g) ;;
      q <- mul iY V ;;
      q' <- mul q rg ;;
      r <- sub p q' ;;
      s <- mul dVdt S ;;
      u <- sub r s ;;
      dSdt <- mul iV'' u ;;
      Ok [dXdt; dSdt; dPdt; dVdt]
  | _ => Raise ValueError
  end.

(** The five names bound to Python floats. *)
Definition float_bindings (g : globals) (m k yx yp f : double) : Prop :=
  mu_max g = PyFloat m /\ K_s g = PyFloat k /\ Y_xs g = PyFloat yx /\
  Y_px g = PyFloat yp /\ F g = PyFloat f.



(** The concentration balances as the specification writes them, one
    quotient by [V] each, on doubles. *)
Definition quotient_form (mumax Ks Yxs Ypx F Sf X S P V : double)
  : list double :=
  let mu := fdiv (fmul mumax S) (fadd Ks S) in
  let r_g := fmul mu X in
  let r_p := fmul Ypx r_g in
  [ fdiv (fsub (fmul V r_g) (fmul F X)) V;
    fdiv (fsub (fsub (fmul F Sf) (fmul (fmul (fdiv (of_int 1) Yxs) V) r_g))
               (fmul F S)) V;
    fdiv (fsub (fmul V r_p) (fmul F P)) V;
    F ].

(** The same balances with the reciprocal of [V] in front, as the source
    has them. *)
Definition reciprocal_form (mumax Ks Yxs Ypx F Sf X S P V : double)
  : list double :=
  let mu := fdiv (fmul mumax S) (fadd Ks S) in
  let r_g := fmul mu X in
  let r_p := fmul Ypx r_g in
  let iV := fdiv (of_int 1) V in
  [ fmul iV (fsub (fmul V r_g) (fmul F X));
    fmul iV (fsub (fsub (fmul F Sf) (fmul (fmul (fdiv (of_int 1) Yxs) V) r_g))
                  (fmul F S));
    fmul iV (fsub (fmul V r_p) (fmul F P));
    F ].

(** A list that [dxdt] returns: three numbers of the kind of the state and
    the [F] of the namespace, a Python float. *)
Definition returned_as (kind : double -> num) (l : list double) : list num :=
  match l with
  | [dX; dS; dP; dV] => [kind dX; kind dS; kind dP; PyFloat dV]
  | _ => []
  end.

(** A double that is a number and not infinite. *)
Definition is_finite (d : double) : bool :=
  match d with
  | S754_zero _ | S754_finite _ _ _ => true
  | _ => false
  end.

(** Two namespaces that bind alike the six names [dxdt] reads. *)
Definition same_model (g1 g2 : globals) : Prop :=
  mu_max g1 = mu_max g2 /\ K_s g1 = K_s g2 /\ Y_xs g1 = Y_xs g2 /\
  Y_px g1 = Y_px g2 /\ F g1 = F g2 /\ S_f g1 = S_f g2.

(** [a < b] on doubles, and [- a]. *)
Definition lt (a b : double) : bool := SFltb a b.
Definition fopp (a : double) : double := SFopp a.


End Py.

(** ** A closed reactor with a known trajectory

    The notebook with [K_s = 0] and [F = 0]: the growth rate is [mu_max]
    wherever there is substrate, and the balances have the solution
    [X(t) = X0 exp(mu_max t)], [S(t) = S0 - (X(t) - X0) / Y_xs],
    [P(t) = Y_px (X(t) - X0)], [V(t) = V0]. *)
Definition unsaturated_batch : Nb.globals :=
  {| Nb.mu_max := 0.2; Nb.K_s := 0; Nb.Y_xs := 0.5; Nb.Y_px := 0.2;
     Nb.X := 0.05; Nb.S := 10; Nb.P := 0; Nb.V := 1;
     Nb.x0 := [0.05; 10; 0; 1];
     Nb.F := 0; Nb.S_f := 10;
     Nb.tspan := [0; 30]; Nb.tsmooth := linspace 0 30 50; Nb.Fs := [0];
     Nb.results := []; Nb.out := None |}.

Definition batch_X (t : R) : R := 0.05 * exp (0.2 * t).
Definition batch_S (t : R) : R := 10 - 1 / 0.5 * (batch_X t - 0.05).
Definition batch_P (t : R) : R := 0.2 * (batch_X t - 0.05).
Definition batch_V (t : R) : R := 1.

(** * Properties *)

(** ** Division *)

Lemma truediv_ok (a b : R) : b <> 0 -> truediv a b = Ok (a / b).
Proof.
  intros Hb. unfold truediv. destruct (Req_dec_T b 0); [contradiction|reflexivity].
Qed.

Lemma truediv_zero (a b : R) : b = 0 -> truediv a b = Raise ZeroDivisionError.
Proof.
  intros Hb. unfold truediv. destruct (Req_dec_T b 0); [reflexivity|contradiction].
Qed.

Lemma truediv_cases (a b : R) :
  (b = 0 /\ truediv a b = Raise ZeroDivisionError) \/
  (b <> 0 /\ truediv a b = Ok (a / b)).
Proof.
  destruct (Req_dec_T b 0) as [E|N].
  - left. split; [exact E|apply truediv_zero; exact E].
  - right. split; [exact N|apply truediv_ok; exact N].
Qed.

Lemma quot_ok (a b : R) : b <> 0 -> quot a b = Some (a / b).
Proof.
  intros Hb. unfold quot. destruct (Req_dec_T b 0); [contradiction|reflexivity].
Qed.

Lemma quot_zero (a b : R) : b = 0 -> quot a b = None.
Proof.
  intros Hb. unfold quot. destruct (Req_dec_T b 0); [reflexivity|contradiction].
Qed.

(** ** What [dxdt] evaluates to *)

Section Dxdt.

Variable g : Nb.globals.
Variables (t X S P V : R).

(** With the three denominators away from zero the body runs to its
    [return], and the list holds the expressions of the source. *)
Lemma dxdt_defined :
  V <> 0 -> Nb.K_s g + S <> 0 -> Nb.Y_xs g <> 0 ->
  Nb.dxdt g t [X; S; P; V] =
  let mu := Nb.mu_max g * S / (Nb.K_s g + S) in
  let rg := mu * X in
  let rp := Nb.Y_px g * rg in
  Ok [ 1 / V * (V * rg - Nb.F g * X);
       1 / V * (Nb.F g * Nb.S_f g - 1 / Nb.Y_xs g * V * rg - Nb.F g * S);
       1 / V * (V * rp - Nb.F g * P);
       Nb.F g ].
Proof.
  intros HV HK HY. unfold Nb.dxdt, Nb.mu.
  rewrite (truediv_ok _ _ HK). cbn [bind].
  rewrite !(truediv_ok _ _ HV). cbn [bind].
  rewrite (truediv_ok _ _ HY). reflexivity.
Qed.

Lemma dxdt_V_zero : V = 0 -> Nb.dxdt g t [X; S; P; V] = Raise ZeroDivisionError.
Proof.
  intros HV. unfold Nb.dxdt, Nb.mu.
  destruct (truediv_cases (Nb.mu_max g * S) (Nb.K_s g + S)) as [[_ E]|[_ E]];
    rewrite E; cbn [bind]; [reflexivity|].
  rewrite (truediv_zero _ _ HV). reflexivity.
Qed.

Lemma dxdt_Monod_zero :
  Nb.K_s g + S = 0 -> Nb.dxdt g t [X; S; P; V] = Raise ZeroDivisionError.
Proof.
  intros HK. unfold Nb.dxdt, Nb.mu. rewrite (truediv_zero _ _ HK). reflexivity.
Qed.

Lemma dxdt_yield_zero :
  Nb.Y_xs g = 0 -> Nb.dxdt g t [X; S; P; V] = Raise ZeroDivisionError.
Proof.
  intros HY. unfold Nb.dxdt, Nb.mu.
  destruct (truediv_cases (Nb.mu_max g * S) (Nb.K_s g + S)) as [[_ E]|[_ E]];
    rewrite E; cbn [bind]; [reflexivity|].
  destruct (truediv_cases 1 V) as [[_ E1]|[_ E1]];
    rewrite !E1; cbn [bind]; [reflexivity|].
  rewrite (truediv_zero _ _ HY). reflexivity.
Qed.

(** The only exception a four-element state can meet. *)
Lemma dxdt_total :
  (exists dX dS dP dV, Nb.dxdt g t [X; S; P; V] = Ok [dX; dS; dP; dV]) \/
  Nb.dxdt g t [X; S; P; V] = Raise ZeroDivisionError.
Proof.
  destruct (Req_dec_T V 0) as [HV|HV]; [right; apply dxdt_V_zero; exact HV|].
  destruct (Req_dec_T (Nb.K_s g + S) 0) as [HK|HK];
    [right; apply dxdt_Monod_zero; exact HK|].
  destruct (Req_dec_T (Nb.Y_xs g) 0) as [HY|HY];
    [right; apply dxdt_yield_zero; exact HY|].
  left. rewrite (dxdt_defined HV HK HY). cbv zeta. eauto.
Qed.

(** Either a division raised, or the list of the source's expressions is
    returned. *)
Lemma dxdt_raises_cases :
  (Nb.dxdt g t [X; S; P; V] = Raise ZeroDivisionError \/
   Nb.dxdt g t [X; S; P; V] =
     let mu := Nb.mu_max g * S / (Nb.K_s g + S) in
     let rg := mu * X in
     let rp := Nb.Y_px g * rg in
     Ok [ 1 / V * (V * rg - Nb.F g * X);
          1 / V * (Nb.F g * Nb.S_f g - 1 / Nb.Y_xs g * V * rg - Nb.F g * S);
          1 / V * (V * rp - Nb.F g * P);
          Nb.F g ]) /\
  (forall d, Nb.dxdt g t [X; S; P; V] = Ok d ->
             V <> 0 /\ Nb.K_s g + S <> 0 /\ Nb.Y_xs g <> 0).
Proof.
  destruct (Req_dec_T V 0) as [HV|HV].
  { rewrite (dxdt_V_zero HV). split; [left; reflexivity|discriminate]. }
  destruct (Req_dec_T (Nb.K_s g + S) 0) as [HK|HK].
  { rewrite (dxdt_Monod_zero HK). split; [left; reflexivity|discriminate]. }
  destruct (Req_dec_T (Nb.Y_xs g) 0) as [HY|HY].
  { rewrite (dxdt_yield_zero HY). split; [left; reflexivity|discriminate]. }
  split; [right; apply dxdt_defined; assumption|].
  intros d _. repeat split; assumption.
Qed.

End Dxdt.

(** Only a list of four entries is unpacked. *)
Lemma dxdt_returns_four (g : Nb.globals) (t : R) (x d : list R) :
  Nb.dxdt g t x = Ok d -> exists X S P V, x = [X; S; P; V].
Proof.
  destruct x as [|X [|S [|P [|V [|]]]]]; try discriminate.
  intros _. exists X, S, P, V. reflexivity.
Qed.

(** The last entry of a returned list is the [F] of the namespace. *)
Lemma dxdt_last_entry (g : Nb.globals) (t : R) (x : list R) (dX dS dP dV : R) :
  Nb.dxdt g t x = Ok [dX; dS; dP; dV] -> dV = Nb.F g.
Proof.
  intros H. destruct (dxdt_returns_four g t x _ H) as (X & S & P & V & ->).
  destruct (proj1 (dxdt_raises_cases g t X S P V)) as [E|E];
    rewrite E in H; [discriminate|].
  cbv zeta in H. congruence.
Qed.

(** Equality of returned states, component by component. *)
Ltac state_eq :=
  repeat match goal with
         | |- Some _ = Some _ => apply f_equal
         | |- Ok _ = Ok _ => apply f_equal
         | |- _ :: _ = _ :: _ => apply (f_equal2 (@cons R))
         end;
  try reflexivity; try (field; repeat split; first [assumption | lra]).

(** ** The derivative against the model of the specification *)

(** Read in exact arithmetic, the expressions of [dxdt] are the quotients of
    the model.  For every state [X, S, P, V] with [V <> 0] the body has a
    value exactly where the quotients by [K_s + S] and by [Y_xs] exist, and
    then the list is, in the order [X, S, P, V], [(V r_g - F X)/V],
    [(F Sf - (1/Yxs) V r_g - F S)/V], [(V r_p - F P)/V] and [F], with
    [mu = mu_max S/(K_s + S)], [r_g = mu X], [r_p = Y_px r_g]; each
    concentration derivative carries its dilution term
    [- F * concentration / V]. *)
Lemma dxdt_exact_value (g : Nb.globals) (t X S P V : R) :
  V <> 0 ->
  returned (Nb.dxdt g t [X; S; P; V]) =
    spec_derivative (Nb.mu_max g) (Nb.K_s g) (Nb.Y_xs g) (Nb.Y_px g)
                    (Nb.F g) (Nb.S_f g) X S P V
  /\
  (Nb.K_s g + S <> 0 -> Nb.Y_xs g <> 0 ->
   let mu := Nb.mu_max g * S / (Nb.K_s g + S) in
   let r_g := mu * X in
   let r_p := Nb.Y_px g * r_g in
   Nb.dxdt g t [X; S; P; V] =
     Ok [ (V * r_g - Nb.F g * X) / V;
          (Nb.F g * Nb.S_f g - (1 / Nb.Y_xs g) * V * r_g - Nb.F g * S) / V;
          (V * r_p - Nb.F g * P) / V;
          Nb.F g ]
   /\ (V * r_g - Nb.F g * X) / V = r_g - Nb.F g * X / V
   /\ (V * r_p - Nb.F g * P) / V = r_p - Nb.F g * P / V
   /\ (Nb.F g * Nb.S_f g - (1 / Nb.Y_xs g) * V * r_g - Nb.F g * S) / V
      = Nb.F g * Nb.S_f g / V - (1 / Nb.Y_xs g) * r_g - Nb.F g * S / V).
Proof.
  intros HV. split.
  - unfold spec_derivative.
    destruct (Req_dec_T (Nb.K_s g + S) 0) as [HK|HK].
    { rewrite (dxdt_Monod_zero g t X S P V HK), (quot_zero _ _ HK). reflexivity. }
    rewrite (quot_ok _ _ HK). cbn [obind]. cbv zeta.
    rewrite !(quot_ok _ _ HV). cbn [obind].
    destruct (Req_dec_T (Nb.Y_xs g) 0) as [HY|HY].
    { rewrite (dxdt_yield_zero g t X S P V HY), (quot_zero _ _ HY). reflexivity. }
    rewrite (quot_ok _ _ HY). cbn [obind].
    rewrite (quot_ok _ _ HV). cbn [obind].
    rewrite (dxdt_defined g t X S P V HV HK HY). cbv zeta. cbn [returned].
    state_eq.
  - intros HK HY. cbv zeta.
    rewrite (dxdt_defined g t X S P V HV HK HY). cbv zeta.
    repeat split; state_eq.
Qed.

(** ** Monod kinetics *)

Lemma Monod_gap (m K a b : R) :
  K + a <> 0 -> K + b <> 0 ->
  m * b / (K + b) - m * a / (K + a) = m * K * (b - a) * / ((K + a) * (K + b)).
Proof. intros Ha Hb. field. split; assumption. Qed.

Lemma Monod_room (m K a : R) :
  K + a <> 0 -> m - m * a / (K + a) = m * K * / (K + a).
Proof. intros Ha. field. exact Ha. Qed.

(** Read in exact arithmetic, with [mu_max > 0] and [K_s > 0], the specific
    growth rate [mu(S) = mu_max S/(K_s + S)] is defined for every [S >= 0],
    does not decrease when [S] grows, never exceeds [mu_max], and is zero at
    [S = 0]. *)
Lemma mu_exact_monotone_bounded (g : Nb.globals) (S1 S2 : R) :
  0 < Nb.mu_max g -> 0 < Nb.K_s g -> 0 <= S1 -> S1 <= S2 ->
  exists m1 m2,
    Nb.mu g S1 = Ok m1 /\ Nb.mu g S2 = Ok m2 /\
    m1 = Nb.mu_max g * S1 / (Nb.K_s g + S1) /\
    m2 = Nb.mu_max g * S2 / (Nb.K_s g + S2) /\
    m1 <= m2 /\ m2 <= Nb.mu_max g /\
    Nb.mu g 0 = Ok 0.
Proof.
  intros Hm HK H1 H12.
  assert (P1 : 0 < Nb.K_s g + S1) by lra.
  assert (P2 : 0 < Nb.K_s g + S2) by lra.
  exists (Nb.mu_max g * S1 / (Nb.K_s g + S1)),
         (Nb.mu_max g * S2 / (Nb.K_s g + S2)).
  unfold Nb.mu.
  rewrite !truediv_ok by lra.
  repeat split.
  - assert (G := Monod_gap (Nb.mu_max g) (Nb.K_s g) S1 S2 ltac:(lra) ltac:(lra)).
    assert (0 <= Nb.mu_max g * Nb.K_s g * (S2 - S1) *
                 / ((Nb.K_s g + S1) * (Nb.K_s g + S2))).
    { apply Rmult_le_pos.
      - apply Rmult_le_pos; [apply Rmult_le_pos|]; lra.
      - apply Rlt_le, Rinv_0_lt_compat, Rmult_lt_0_compat; assumption. }
    lra.
  - assert (G := Monod_room (Nb.mu_max g) (Nb.K_s g) S2 ltac:(lra)).
    assert (0 <= Nb.mu_max g * Nb.K_s g * / (Nb.K_s g + S2)).
    { apply Rmult_le_pos.
      - apply Rmult_le_pos; lra.
      - apply Rlt_le, Rinv_0_lt_compat; assumption. }
    lra.
  - f_equal. field. lra.
Qed.

(** ** The namespace and the loop *)

Lemma dxdt_same_model (g1 g2 : Nb.globals) :
  same_model g1 g2 -> forall t1 t2 x, Nb.dxdt g1 t1 x = Nb.dxdt g2 t2 x.
Proof.
  intros (Hm & HK & HY & Hp & HF & HS) t1 t2 x.
  unfold Nb.dxdt, Nb.mu. rewrite Hm, HK, HY, Hp, HF, HS. reflexivity.
Qed.

Lemma same_setup_refl (g : Nb.globals) : same_setup g g.
Proof. unfold same_setup. repeat split. Qed.

Lemma same_setup_turn (g h : Nb.globals) (vo : R * OdeResult) :
  same_setup g h -> same_setup g (turn h vo).
Proof. unfold same_setup, turn. simpl. tauto. Qed.

Lemma same_setup_turns (g : Nb.globals) (vs : list R) (os : list OdeResult) :
  forall h, same_setup g h -> same_setup g (turns h vs os).
Proof.
  unfold turns. generalize (combine vs os) as l.
  induction l as [|vo l IH]; intros h Hh; simpl; [exact Hh|].
  apply IH, same_setup_turn, Hh.
Qed.

Lemma turns_cons (h : Nb.globals) v vs o os :
  turns h (v :: vs) (o :: os) = turns (turn h (v, o)) vs os.
Proof. reflexivity. Qed.

Lemma results_turns (vs : list R) :
  forall os h, length vs = length os ->
    Nb.results (turns h vs os) = Nb.results h ++ os.
Proof.
  induction vs as [|v vs IH]; intros [|o os] h Hlen; try discriminate.
  - simpl. rewrite app_nil_r. reflexivity.
  - rewrite turns_cons, IH by (simpl in Hlen; congruence).
    simpl. rewrite <- app_assoc. reflexivity.
Qed.

Lemma last_default {A} (l : list A) (a d d' : A) :
  last (a :: l) d = last (a :: l) d'.
Proof.
  revert a. induction l as [|b l IH]; intros a; [reflexivity|].
  change (last (b :: l) d = last (b :: l) d'). apply IH.
Qed.

Lemma F_turns (vs : list R) :
  forall os h, length vs = length os ->
    Nb.F (turns h vs os) = last vs (Nb.F h).
Proof.
  induction vs as [|v vs IH]; intros [|o os] h Hlen; try discriminate.
  - reflexivity.
  - rewrite turns_cons, IH by (simpl in Hlen; congruence).
    simpl. destruct vs; [reflexivity|apply last_default].
Qed.

Lemma out_turns (vs : list R) :
  forall os h, length vs = length os ->
    Nb.out (turns h vs os) = last (map Some os) (Nb.out h).
Proof.
  induction vs as [|v vs IH]; intros [|o os] h Hlen; try discriminate.
  - reflexivity.
  - rewrite turns_cons, IH by (simpl in Hlen; congruence).
    simpl. destruct os; [reflexivity|apply last_default].
Qed.

Lemma Fs_turns (vs : list R) (os : list OdeResult) :
  forall h, Nb.Fs (turns h vs os) = Nb.Fs h.
Proof.
  unfold turns. generalize (combine vs os) as l.
  induction l as [|vo l IH]; intros h; simpl; [reflexivity|].
  rewrite IH. reflexivity.
Qed.

Section SweepFacts.

Variable solve_ivp :
  (R -> list R -> result (list R)) -> list R -> list R -> list R ->
  result OdeResult.

(** The solver sees the callback only through its calls, so namespaces
    that agree on what a turn reads give the same solver call. *)
Lemma integrate_same_setup (g1 g2 : Nb.globals) (v : R) :
  same_setup g1 g2 ->
  Nb.integrate solve_ivp (Nb.bind_F v g1) = Nb.integrate solve_ivp (Nb.bind_F v g2).
Proof.
  intros H. assert (H' := H).
  destruct H' as (Hm & HK & HY & Hp & HS & Hts & Hx & Hte).
  unfold Nb.integrate. simpl. rewrite Hts, Hx, Hte.
  replace (Nb.dxdt (Nb.bind_F v g1)) with (Nb.dxdt (Nb.bind_F v g2)); [reflexivity|].
  extensionality t. extensionality x.
  apply dxdt_same_model. unfold same_model. simpl. repeat split; congruence.
Qed.

(** The loop either returns after one appended result per element, or
    stops at the first element whose solver call raises. *)
Lemma for_in_outcome (g : Nb.globals) (l : list R) :
  forall h, same_setup g h ->
    (exists os, Forall2 (answer solve_ivp g) l os /\
                Nb.for_in l (Nb.loop_body solve_ivp) h = (Ok tt, turns h l os))
    \/
    (exists l1 v l2 os e,
        l = l1 ++ v :: l2 /\ Forall2 (answer solve_ivp g) l1 os /\
        Nb.integrate solve_ivp (Nb.bind_F v g) = Raise e /\
        Nb.for_in l (Nb.loop_body solve_ivp) h =
          (Raise e, Nb.bind_F v (turns h l1 os))).
Proof.
  induction l as [|v l IH]; intros h Hh.
  - left. exists []. split; [constructor|reflexivity].
  - assert (Hstep :
      Nb.for_in (v :: l) (Nb.loop_body solve_ivp) h =
      match Nb.integrate solve_ivp (Nb.bind_F v g) with
      | Ok o => Nb.for_in l (Nb.loop_body solve_ivp) (turn h (v, o))
      | Raise e => (Raise e, Nb.bind_F v h)
      end).
    { cbn [Nb.for_in]. unfold Nb.cell_bind, Nb.loop_body at 1. cbv zeta.
      rewrite <- (integrate_same_setup g h v Hh).
      destruct (Nb.integrate solve_ivp (Nb.bind_F v g)); reflexivity. }
    rewrite !Hstep.
    destruct (Nb.integrate solve_ivp (Nb.bind_F v g)) as [o|e] eqn:E.
    + destruct (IH (turn h (v, o)) (same_setup_turn g h (v, o) Hh))
        as [(os & HF & Hr)|(l1 & w & l2 & os & e & Hl & HF & Hw & Hr)].
      * left. exists (o :: os). split; [constructor; assumption|].
        rewrite turns_cons. exact Hr.
      * right. exists (v :: l1), w, l2, (o :: os), e.
        split; [rewrite Hl; reflexivity|].
        split; [constructor; assumption|].
        split; [exact Hw|]. rewrite turns_cons. exact Hr.
    + right. exists [], v, l, [], e.
      split; [reflexivity|]. split; [constructor|].
      split; [exact E|reflexivity].
Qed.

Lemma answer_functional (g : Nb.globals) (l : list R) :
  forall os os', Forall2 (answer solve_ivp g) l os -> Forall2 (answer solve_ivp g) l os' -> os = os'.
Proof.
  induction l as [|v l IH]; intros os os' H H'; inversion H; inversion H'; subst.
  - reflexivity.
  - f_equal; [unfold answer in *; congruence|apply IH; assumption].
Qed.

Lemma sweep_outcome (g : Nb.globals) :
  (exists os, Forall2 (answer solve_ivp g) (Nb.Fs g) os /\
              Nb.sweep solve_ivp g = (Ok tt, turns g (Nb.Fs g) os))
  \/
  (exists l1 v l2 os e,
      Nb.Fs g = l1 ++ v :: l2 /\ Forall2 (answer solve_ivp g) l1 os /\
      Nb.integrate solve_ivp (Nb.bind_F v g) = Raise e /\
      Nb.sweep solve_ivp g = (Raise e, Nb.bind_F v (turns g l1 os))).
Proof. apply for_in_outcome, same_setup_refl. Qed.

Lemma answer_prefix_no_raise (g : Nb.globals) (l1 l2 : list R) (v : R) e :
  forall os, Forall2 (answer solve_ivp g) (l1 ++ v :: l2) os ->
             Nb.integrate solve_ivp (Nb.bind_F v g) = Raise e -> False.
Proof.
  induction l1 as [|w l1 IH]; intros os H Hr; inversion H; subst.
  - unfold answer in *. congruence.
  - eapply IH; eassumption.
Qed.

(** The sweep returns exactly when every scenario's solver call does. *)
Lemma sweep_returns (g : Nb.globals) (os : list OdeResult) :
  Forall2 (answer solve_ivp g) (Nb.Fs g) os ->
  Nb.sweep solve_ivp g = (Ok tt, turns g (Nb.Fs g) os).
Proof.
  intros H.
  destruct (sweep_outcome g) as [(os' & H' & E)|(l1 & v & l2 & os' & e & Hl & _ & Hr & _)].
  - rewrite (answer_functional g _ os os' H H'). exact E.
  - rewrite Hl in H. destruct (answer_prefix_no_raise g l1 l2 v e os H Hr).
Qed.

Lemma sweep_returned (g g' : Nb.globals) :
  Nb.sweep solve_ivp g = (Ok tt, g') ->
  exists os, Forall2 (answer solve_ivp g) (Nb.Fs g) os /\ g' = turns g (Nb.Fs g) os.
Proof.
  intros E.
  destruct (sweep_outcome g) as [(os & H & E')|(l1 & v & l2 & os & e & _ & _ & _ & E')];
    rewrite E' in E; [|discriminate].
  exists os. split; [exact H|]. congruence.
Qed.

End SweepFacts.

(** ** Scenarios do not influence each other *)

Section Independence.

Variable solve_ivp :
  (R -> list R -> result (list R)) -> list R -> list R -> list R ->
  result OdeResult.

Lemma sweep_results_iff (g : Nb.globals) (os : list OdeResult) :
  Nb.results g = [] ->
  sweep_results solve_ivp g = Ok os <->
  Forall2 (answer solve_ivp g) (Nb.Fs g) os.
Proof.
  intros Hnil. unfold sweep_results. split.
  - destruct (Nb.sweep solve_ivp g) as [[[]|e] g'] eqn:E; [|discriminate].
    intros H. injection H as H.
    destruct (sweep_returned solve_ivp g g' E) as (os' & HF & ->).
    rewrite results_turns, Hnil in H by (eapply Forall2_length; exact HF).
    simpl in H. subst os'. exact HF.
  - intros HF. rewrite (sweep_returns solve_ivp g os HF).
    rewrite results_turns, Hnil by (eapply Forall2_length; exact HF).
    reflexivity.
Qed.

Lemma answer_same_setup (g h : Nb.globals) (v : R) (o : OdeResult) :
  same_setup g h -> answer solve_ivp g v o <-> answer solve_ivp h v o.
Proof.
  intros H. unfold answer. rewrite (integrate_same_setup solve_ivp g h v H). tauto.
Qed.

Lemma before_sweep_same_setup (l l' : list R) :
  same_setup (Nb.before_sweep l) (Nb.before_sweep l').
Proof. unfold same_setup. simpl. repeat split. Qed.

(** A scenario in a sweep gets the result it gets alone. *)
Lemma sweep_results_alone (l : list R) (os : list OdeResult) :
  sweep_results solve_ivp (Nb.before_sweep l) = Ok os <->
  Forall2 (fun v o => sweep_results solve_ivp (Nb.before_sweep [v]) = Ok [o]) l os.
Proof.
  rewrite sweep_results_iff by reflexivity. simpl Nb.Fs.
  split; intros H; induction H; constructor; try assumption.
  - apply sweep_results_iff; [reflexivity|]. simpl Nb.Fs.
    constructor; [|constructor].
    apply (answer_same_setup _ _ _ _ (before_sweep_same_setup l [x])). assumption.
  - apply sweep_results_iff in H; [|reflexivity]. simpl Nb.Fs in H.
    inversion H; subst.
    apply (answer_same_setup _ _ _ _ (before_sweep_same_setup l [x])). assumption.
Qed.

End Independence.

(** C2 as amended.  Whatever the solver, a function of its arguments whose
    calls return or raise: the sweep over the two scenarios [F = 0.05] and
    [F = 0.02] (both with [S_f = 10]) returns the results [o1, o2] exactly
    when the solver, called with the notebook's time span, initial state and
    grid on [dxdt] with [F] bound to 0.05, returns [o1], and on [dxdt] with
    [F] bound to 0.02 returns [o2]; this is what each scenario returns when
    it is swept alone, and sweeping the scenarios in the other order gives
    the same two results, swapped.  The turns do share the namespace: each
    writes [F], [results] and [out], the solver call of a turn is the same
    in every namespace that has the notebook's setup whatever an earlier
    turn left in these three names, and the sweep leaves in [F] the scenario
    that came last in its order. *)
Theorem sweep_trajectories
  (solve_ivp : (R -> list R -> result (list R)) -> list R -> list R ->
               list R -> result OdeResult)
  (o1 o2 : OdeResult) :
  let alone v :=
    solve_ivp (Nb.dxdt (Nb.bind_F v Nb.notebook))
              (Nb.tspan Nb.notebook) (Nb.x0 Nb.notebook)
              (Nb.tsmooth Nb.notebook) in
  (sweep_results solve_ivp Nb.notebook = Ok [o1; o2] <->
     alone 0.05 = Ok o1 /\ alone 0.02 = Ok o2)
  /\
  (sweep_results solve_ivp (Nb.before_sweep [0.05]) = Ok [o1] <->
     alone 0.05 = Ok o1)
  /\
  (sweep_results solve_ivp (Nb.before_sweep [0.02]) = Ok [o2] <->
     alone 0.02 = Ok o2)
  /\
  (sweep_results solve_ivp (Nb.before_sweep [0.02; 0.05]) = Ok [o2; o1] <->
     sweep_results solve_ivp Nb.notebook = Ok [o1; o2])
  /\
  (forall (h : Nb.globals) (v : R),
     same_setup Nb.notebook h ->
     Nb.integrate solve_ivp (Nb.bind_F v h) = alone v)
  /\
  (forall g', Nb.sweep solve_ivp Nb.notebook = (Ok tt, g') ->
              Nb.F g' = 0.02)
  /\
  (forall g', Nb.sweep solve_ivp (Nb.before_sweep [0.02; 0.05]) = (Ok tt, g') ->
              Nb.F g' = 0.05).
Proof.
  intros alone.
  assert (One : forall a o,
             sweep_results solve_ivp (Nb.before_sweep [a]) = Ok [o] <->
             alone a = Ok o).
  { intros a o. rewrite sweep_results_iff by reflexivity. simpl Nb.Fs. split.
    - intros H. inversion H as [|? ? ? ? Ha _]; subst. exact Ha.
    - intros Ha. constructor; [exact Ha|constructor]. }
  assert (A : forall a b oa ob,
             sweep_results solve_ivp (Nb.before_sweep [a; b]) = Ok [oa; ob] <->
             alone a = Ok oa /\ alone b = Ok ob).
  { intros a b oa ob. rewrite sweep_results_alone. split.
    - intros H. inversion H as [|? ? ? ? Ha H']; subst.
      inversion H' as [|? ? ? ? Hb _]; subst.
      split; apply One; assumption.
    - intros [Ha Hb]. repeat constructor; apply One; assumption. }
  split; [apply A|].
  split; [apply One|].
  split; [apply One|].
  split; [unfold Nb.notebook; rewrite !A; tauto|].
  split.
  { intros h v Hh. symmetry. apply (integrate_same_setup solve_ivp _ _ v Hh). }
  split.
  - intros g' E. destruct (sweep_returned solve_ivp _ _ E) as (os & HF & ->).
    rewrite F_turns by (eapply Forall2_length; exact HF). reflexivity.
  - intros g' E. destruct (sweep_returned solve_ivp _ _ E) as (os & HF & ->).
    rewrite F_turns by (eapply Forall2_length; exact HF). reflexivity.
Qed.

(** ** Running the sweep with the one-step solver *)


Lemma one_step_answer (l : list R) (v : R) :
  exists o, answer one_step_solver (Nb.before_sweep l) v o.
Proof.
  unfold answer, Nb.integrate, one_step_solver.
  cbn [Nb.tspan Nb.x0 Nb.bind_F Nb.before_sweep].
  rewrite dxdt_defined by (simpl; lra).
  cbv zeta. cbn [bind]. eexists. reflexivity.
Qed.

Lemma one_step_notebook_returns :
  exists o1 o2,
    Forall2 (answer one_step_solver Nb.notebook) (Nb.Fs Nb.notebook) [o1; o2] /\
    Nb.sweep one_step_solver Nb.notebook =
      (Ok tt, turns Nb.notebook [0.05; 0.02] [o1; o2]).
Proof.
  destruct (one_step_answer [0.05; 0.02] 0.05) as [o1 H1].
  destruct (one_step_answer [0.05; 0.02] 0.02) as [o2 H2].
  exists o1, o2.
  assert (HF : Forall2 (answer one_step_solver Nb.notebook)
                       (Nb.Fs Nb.notebook) [o1; o2]).
  { simpl. repeat constructor; assumption. }
  split; [exact HF|]. apply (sweep_returns _ _ _ HF).
Qed.

(** ** One result per scenario *)

(** C5 as amended.  When the solver call of every scenario returns,
    whatever status the returned result reports, the sweep returns and has
    appended to [results] exactly one result per scenario, in the order of
    [Fs]: the solver's result for that scenario.  When the sweep returns it
    did so.  When the solver call of a scenario raises, the sweep raises the
    same exception and [results] holds the results of the scenarios before
    it only. *)
Theorem sweep_one_result_per_returned_call
  (solve_ivp : (R -> list R -> result (list R)) -> list R -> list R ->
               list R -> result OdeResult)
  (g : Nb.globals) :
  (forall os, Forall2 (answer solve_ivp g) (Nb.Fs g) os ->
     exists g', Nb.sweep solve_ivp g = (Ok tt, g') /\
                Nb.results g' = Nb.results g ++ os /\
                length os = length (Nb.Fs g))
  /\
  (forall g', Nb.sweep solve_ivp g = (Ok tt, g') ->
     exists os, Forall2 (answer solve_ivp g) (Nb.Fs g) os /\
                Nb.results g' = Nb.results g ++ os /\
                length os = length (Nb.Fs g))
  /\
  (forall e g', Nb.sweep solve_ivp g = (Raise e, g') ->
     exists l1 v l2 os,
       Nb.Fs g = l1 ++ v :: l2 /\
       Forall2 (answer solve_ivp g) l1 os /\
       Nb.integrate solve_ivp (Nb.bind_F v g) = Raise e /\
       Nb.results g' = Nb.results g ++ os /\
       (length os < length (Nb.Fs g))%nat).
Proof.
  split; [|split].
  - intros os HF. exists (turns g (Nb.Fs g) os).
    assert (Hlen := Forall2_length HF).
    split; [apply sweep_returns; exact HF|].
    split; [apply results_turns; exact Hlen|symmetry; exact Hlen].
  - intros g' E. destruct (sweep_returned solve_ivp g g' E) as (os & HF & ->).
    assert (Hlen := Forall2_length HF).
    exists os. split; [exact HF|].
    split; [apply results_turns; exact Hlen|symmetry; exact Hlen].
  - intros e g' E.
    destruct (sweep_outcome solve_ivp g)
      as [(os & _ & E')|(l1 & v & l2 & os & e' & Hl & HF & Hr & E')];
      rewrite E' in E; [discriminate|].
    injection E as <- <-.
    assert (Hlen := Forall2_length HF).
    exists l1, v, l2, os. split; [exact Hl|]. split; [exact HF|].
    split; [exact Hr|]. split.
    + simpl. apply results_turns. exact Hlen.
    + rewrite Hl, length_app, <- Hlen. simpl. apply Nat.lt_add_pos_r, Nat.lt_0_succ.
Qed.

Lemma sweep_one_result_per_returned_call_witness :
  exists g', Nb.sweep one_step_solver Nb.notebook = (Ok tt, g') /\
             length (Nb.results g') = 2%nat.
Proof.
  destruct one_step_notebook_returns as (o1 & o2 & HF & _).
  destruct (proj1 (sweep_one_result_per_returned_call one_step_solver Nb.notebook)
              [o1; o2] HF) as (g' & E & Hres & _).
  exists g'. split; [exact E|]. rewrite Hres. reflexivity.
Defined.

(** C5 as written fails: with an initial state of three entries the call of
    [dxdt] inside the solver raises [ValueError] at the unpacking, the
    exception ends the sweep in its first turn, and [results] is empty
    although two scenarios were requested. *)
Lemma sweep_stops_at_raising_call :
  let g := with_x0 [0.05; 10; 0] Nb.notebook in
  length (Nb.Fs g) = 2%nat /\
  fst (Nb.sweep one_step_solver g) = Raise ValueError /\
  Nb.results (snd (Nb.sweep one_step_solver g)) = [] /\
  ~ (exists g', Nb.sweep one_step_solver g = (Ok tt, g')).
Proof.
  cbv zeta.
  assert (E : Nb.sweep one_step_solver (with_x0 [0.05; 10; 0] Nb.notebook) =
              (Raise ValueError,
               Nb.bind_F 0.05 (with_x0 [0.05; 10; 0] Nb.notebook))).
  { reflexivity. }
  rewrite E. repeat split.
  intros [g' H]. discriminate.
Qed.

(** ** What the sweep leaves in the namespace *)

Lemma sweep_rebinds_F
  (solve_ivp : (R -> list R -> result (list R)) -> list R -> list R ->
               list R -> result OdeResult)
  (g g' : Nb.globals) :
  Nb.sweep solve_ivp g = (Ok tt, g') ->
  Nb.F g' = last (Nb.Fs g) (Nb.F g) /\ same_setup g g' /\ Nb.Fs g' = Nb.Fs g.
Proof.
  intros E. destruct (sweep_returned solve_ivp g g' E) as (os & HF & ->).
  split; [apply F_turns; eapply Forall2_length; exact HF|].
  split; [apply same_setup_turns, same_setup_refl|apply Fs_turns].
Qed.

(** C9.  The loop variable of the sweep is the module-level [F].  Before the
    sweep [F] is 0.05; the first solver call is made with [F] bound to 0.05
    and the second with [F] bound to 0.02; when the sweep has returned, [F]
    is 0.02, the last scenario, while [S_f], [mu_max], [K_s], [Y_xs] and
    [Y_px] are bound as before.  A call of [dxdt] after the sweep therefore
    computes with [F = 0.02]: whenever it returns, the last entry of the
    list is 0.02 and not 0.05. *)
Theorem F_after_sweep
  (solve_ivp : (R -> list R -> result (list R)) -> list R -> list R ->
               list R -> result OdeResult)
  (g' : Nb.globals) :
  Nb.sweep solve_ivp Nb.notebook = (Ok tt, g') ->
  Nb.F Nb.notebook = 0.05 /\
  (exists o1 o2,
      Nb.integrate solve_ivp (Nb.bind_F 0.05 Nb.notebook) = Ok o1 /\
      Nb.integrate solve_ivp (Nb.bind_F 0.02 Nb.notebook) = Ok o2 /\
      Nb.results g' = [o1; o2] /\ Nb.out g' = Some o2) /\
  Nb.F g' = 0.02 /\
  Nb.S_f g' = 10 /\ Nb.mu_max g' = 0.2 /\ Nb.K_s g' = 1.0 /\
  Nb.Y_xs g' = 0.5 /\ Nb.Y_px g' = 0.2 /\
  (forall t x, Nb.dxdt g' t x = Nb.dxdt (Nb.bind_F 0.02 Nb.notebook) t x) /\
  (forall t x dX dS dP dV,
      Nb.dxdt g' t x = Ok [dX; dS; dP; dV] -> dV = 0.02 /\ dV <> 0.05).
Proof.
  intros E.
  destruct (sweep_rebinds_F solve_ivp _ _ E)
    as (HF & (Hm & HK & HY & Hp & HS & _) & _).
  simpl in HF, Hm, HK, HY, Hp, HS.
  assert (Hd : forall t x,
             Nb.dxdt g' t x = Nb.dxdt (Nb.bind_F 0.02 Nb.notebook) t x).
  { intros t x. apply dxdt_same_model. unfold same_model. simpl.
    repeat split; congruence. }
  split; [reflexivity|]. split.
  { destruct (sweep_returned solve_ivp _ _ E) as (os & HA & ->).
    simpl in HA. inversion HA as [|? o1 ? os1 H1 HA1]; subst.
    inversion HA1 as [|? o2 ? os2 H2 HA2]; subst. inversion HA2; subst.
    exists o1, o2. repeat split; assumption. }
  repeat split; try congruence.
  - rewrite Hd in H. apply dxdt_last_entry in H. exact H.
  - rewrite Hd in H. apply dxdt_last_entry in H. simpl in H. lra.
Qed.

Lemma F_after_sweep_witness :
  exists g', Nb.sweep one_step_solver Nb.notebook = (Ok tt, g') /\
             Nb.F g' = 0.02.
Proof.
  destruct one_step_notebook_returns as (o1 & o2 & _ & E).
  eexists. split; [exact E|].
  apply (proj1 (proj2 (proj2 (F_after_sweep one_step_solver _ E)))).
Defined.

(** ** No check of the configuration *)

(** C4 as amended.  The sweep checks nothing before it integrates.  With an
    empty [Fs] it returns at once and leaves the namespace as it was.  With
    a first scenario [v] it rebinds [F] and calls the solver with the
    configured initial state, time span and grid, whatever they are; if that
    call raises, the sweep raises the same exception.  Every exception of
    the sweep is the exception of a solver call made on the configured
    state, span and grid; if the solver call of every scenario returns, the
    sweep returns. *)
Theorem sweep_validates_nothing
  (solve_ivp : (R -> list R -> result (list R)) -> list R -> list R ->
               list R -> result OdeResult)
  (g : Nb.globals) :
  (Nb.Fs g = [] -> Nb.sweep solve_ivp g = (Ok tt, g)) /\
  (forall v rest e,
     Nb.Fs g = v :: rest ->
     solve_ivp (Nb.dxdt (Nb.bind_F v g)) (Nb.tspan g) (Nb.x0 g) (Nb.tsmooth g)
       = Raise e ->
     Nb.sweep solve_ivp g = (Raise e, Nb.bind_F v g)) /\
  (forall e, fst (Nb.sweep solve_ivp g) = Raise e ->
     exists v, In v (Nb.Fs g) /\
       solve_ivp (Nb.dxdt (Nb.bind_F v g)) (Nb.tspan g) (Nb.x0 g) (Nb.tsmooth g)
         = Raise e) /\
  ((forall v, In v (Nb.Fs g) -> exists o, answer solve_ivp g v o) ->
   fst (Nb.sweep solve_ivp g) = Ok tt).
Proof.
  split; [|split; [|split]].
  - intros H. unfold Nb.sweep. rewrite H. reflexivity.
  - intros v rest e H Hr. unfold Nb.sweep. rewrite H.
    cbn [Nb.for_in]. unfold Nb.cell_bind, Nb.loop_body, Nb.integrate.
    cbv zeta. simpl Nb.tspan. simpl Nb.x0. simpl Nb.tsmooth.
    rewrite Hr. reflexivity.
  - intros e He.
    destruct (sweep_outcome solve_ivp g)
      as [(os & _ & E)|(l1 & v & l2 & os & e' & Hl & _ & Hr & E)];
      rewrite E in He; [discriminate|].
    simpl in He. injection He as ->.
    exists v. split; [rewrite Hl; apply in_elt|exact Hr].
  - intros Hall.
    destruct (sweep_outcome solve_ivp g)
      as [(os & _ & E)|(l1 & v & l2 & os & e' & Hl & _ & Hr & E)];
      rewrite E; [reflexivity|].
    destruct (Hall v) as [o Ho]; [rewrite Hl; apply in_elt|].
    unfold answer in Ho. congruence.
Qed.

Lemma sweep_validates_nothing_witness :
  Nb.sweep one_step_solver (Nb.before_sweep []) = (Ok tt, Nb.before_sweep []) /\
  fst (Nb.sweep one_step_solver Nb.notebook) = Ok tt.
Proof.
  split.
  - apply (proj1 (sweep_validates_nothing one_step_solver (Nb.before_sweep []))).
    reflexivity.
  - apply (proj2 (proj2 (proj2 (sweep_validates_nothing one_step_solver Nb.notebook)))).
    intros v _. apply one_step_answer.
Defined.

(** C4 as written fails.  An empty list of scenarios and an initial state
    with [V0 = 0] are both configurations the specification calls invalid,
    and neither is rejected before integration: with the empty list the
    sweep returns normally, and with [V0 = 0] the sweep goes on to call the
    solver, so that it returns whenever the solver does. *)
Lemma invalid_configuration_not_rejected :
  (invalid_configuration (Nb.before_sweep []) /\
   ~ rejected_eagerly (Nb.before_sweep []) /\
   forall solve_ivp,
     Nb.sweep solve_ivp (Nb.before_sweep []) = (Ok tt, Nb.before_sweep []))
  /\
  (invalid_configuration (with_x0 [0.05; 10; 0; 0] Nb.notebook) /\
   ~ rejected_eagerly (with_x0 [0.05; 10; 0; 0] Nb.notebook)).
Proof.
  pose (quiet := fun (_ : R -> list R -> result (list R)) (_ y0 t_eval : list R) =>
                   Ok {| sol_t := t_eval; sol_y := map (fun y => map (fun _ => y) t_eval) y0;
                         status := 0%Z; success := true |}).
  split; [split; [|split]|split].
  - unfold invalid_configuration. simpl. tauto.
  - intros H. destruct (H quiet) as [e He]. discriminate.
  - intros solve_ivp. reflexivity.
  - unfold invalid_configuration. simpl. tauto.
  - intros H. destruct (H quiet) as [e He]. discriminate.
Qed.

(** ** Trajectories of the model *)

Lemma affine_derivative (c k t : R) :
  derivable_pt_lim (fun s => c + k * s) t k.
Proof.
  intros eps Heps. exists (mkposreal 1 Rlt_0_1). intros h Hh _.
  replace ((c + k * (t + h) - (c + k * t)) / h - k) with 0 by (field; exact Hh).
  rewrite Rabs_R0. exact Heps.
Qed.

Lemma linear_derivative (k t : R) : derivable_pt_lim (fun s => k * s) t k.
Proof.
  intros eps Heps. exists (mkposreal 1 Rlt_0_1). intros h Hh _.
  replace ((k * (t + h) - k * t) / h - k) with 0 by (field; exact Hh).
  rewrite Rabs_R0. exact Heps.
Qed.

(** A function whose derivative vanishes on [[a, b]] keeps there the value
    it has at [a]. *)
Lemma zero_derivative_constant (f : R -> R) (a b : R) :
  (forall t, a <= t <= b -> derivable_pt_lim f t 0) ->
  forall t, a <= t <= b -> f t = f a.
Proof.
  intros H t Ht.
  assert (inside : forall x, a < x < b -> a <= x <= b) by (intros x Hx; lra).
  pose (pr := fun (x : R) (Hx : a < x < b) =>
                exist (fun l => derivable_pt_abs f x l) 0 (H x (inside x Hx))
                : derivable_pt f x).
  apply (null_derivative_loc f a b pr).
  - intros x Hx. apply derivable_continuous_pt. exists 0. apply H. exact Hx.
  - intros x Hx. reflexivity.
  - exact Ht.
Qed.

Section Trajectory.

Variable g : Nb.globals.
Variables (a b : R) (yX yS yP yV : R -> R).
Hypothesis sol : solves g a b yX yS yP yV.

(** [V(t) - F t] does not move. *)
Lemma volume_minus_feed_constant :
  forall t, a <= t <= b -> yV t - Nb.F g * t = yV a - Nb.F g * a.
Proof.
  apply (zero_derivative_constant (fun s => yV s - Nb.F g * s)).
  intros t Ht. destruct (sol t Ht) as (dX & dS & dP & dV & E & _ & _ & _ & DV).
  apply dxdt_last_entry in E. subst dV.
  replace 0 with (Nb.F g - Nb.F g) by ring.
  apply (derivable_pt_lim_minus yV (fun s => Nb.F g * s)); [exact DV|].
  assert (D := affine_derivative 0 (Nb.F g) t).
  intros eps Heps. destruct (D eps Heps) as [delta Hd]. exists delta.
  intros h Hh Hlt. specialize (Hd h Hh Hlt).
  replace ((Nb.F g * (t + h) - Nb.F g * t) / h - Nb.F g)
    with ((0 + Nb.F g * (t + h) - (0 + Nb.F g * t)) / h - Nb.F g)
    by (field; exact Hh).
  exact Hd.
Qed.

(** Without feed, [S + X / Y_xs] does not move. *)
Lemma substrate_biomass_constant :
  Nb.F g = 0 ->
  forall t, a <= t <= b ->
    yS t + 1 / Nb.Y_xs g * yX t = yS a + 1 / Nb.Y_xs g * yX a.
Proof.
  intros HF.
  apply (zero_derivative_constant (fun s => yS s + 1 / Nb.Y_xs g * yX s)).
  intros t Ht. destruct (sol t Ht) as (dX & dS & dP & dV & E & DX & DS & _ & _).
  destruct (dxdt_raises_cases g t (yX t) (yS t) (yP t) (yV t)) as [[Hbad|Hgood] Hne].
  { rewrite Hbad in E. discriminate. }
  destruct (Hne _ E) as (HV & HK & HY).
  rewrite Hgood in E. cbv zeta in E. injection E as EX ES _ _.
  rewrite HF in EX, ES.
  replace 0 with (dS + 1 / Nb.Y_xs g * dX).
  - apply (derivable_pt_lim_plus yS (fun s => 1 / Nb.Y_xs g * yX s)); [exact DS|].
    apply (derivable_pt_lim_scal yX (1 / Nb.Y_xs g)). exact DX.
  - rewrite <- EX, <- ES. field. repeat split; assumption.
Qed.

End Trajectory.

(** The state without biomass or product, fed at the feed concentration:
    the substrate stays at [S_f] and the volume grows with [F]. *)
Lemma sterile_filling_solves (b : R) :
  0 <= b ->
  solves Nb.notebook 0 b (fun _ => 0) (fun _ => 10) (fun _ => 0)
         (fun s => 1 + 0.05 * s).
Proof.
  intros Hb t Ht. exists 0, 0, 0, 0.05.
  split; [|split; [|split; [|split]]];
    try (apply derivable_pt_lim_const); [|apply affine_derivative].
  assert (HV : 1 + 0.05 * t <> 0) by lra.
  rewrite dxdt_defined by (simpl; lra). cbv zeta. simpl.
  state_eq.
Qed.

(** ** The two scenarios with the one-step solver *)

Lemma one_step_sweep (l : list R) :
  exists os,
    Forall2 (answer one_step_solver (Nb.before_sweep l)) l os /\
    Nb.sweep one_step_solver (Nb.before_sweep l) =
      (Ok tt, turns (Nb.before_sweep l) l os).
Proof.
  assert (H : forall l', exists os,
             Forall2 (answer one_step_solver (Nb.before_sweep l)) l' os).
  { induction l' as [|v l' [os IH]].
    - exists []. constructor.
    - destruct (one_step_answer l v) as [o Ho].
      exists (o :: os). constructor; assumption. }
  destruct (H l) as [os Hos]. exists os. split; [exact Hos|].
  apply (sweep_returns one_step_solver (Nb.before_sweep l) os Hos).
Qed.

Lemma sweep_trajectories_witness :
  (exists o1 o2,
     sweep_results one_step_solver Nb.notebook = Ok [o1; o2] /\
     one_step_solver (Nb.dxdt (Nb.bind_F 0.05 Nb.notebook))
       (Nb.tspan Nb.notebook) (Nb.x0 Nb.notebook) (Nb.tsmooth Nb.notebook)
       = Ok o1 /\
     one_step_solver (Nb.dxdt (Nb.bind_F 0.02 Nb.notebook))
       (Nb.tspan Nb.notebook) (Nb.x0 Nb.notebook) (Nb.tsmooth Nb.notebook)
       = Ok o2 /\
     sweep_results one_step_solver (Nb.before_sweep [0.02; 0.05])
       = Ok [o2; o1]) /\
  (exists g g',
     Nb.sweep one_step_solver Nb.notebook = (Ok tt, g) /\ Nb.F g = 0.02 /\
     Nb.sweep one_step_solver (Nb.before_sweep [0.02; 0.05]) = (Ok tt, g') /\
     Nb.F g' = 0.05).
Proof.
  split.
  - destruct one_step_notebook_returns as (o1 & o2 & HF & _).
    exists o1, o2.
    assert (E : sweep_results one_step_solver Nb.notebook = Ok [o1; o2]).
    { apply sweep_results_iff; [reflexivity|exact HF]. }
    split; [exact E|].
    destruct (proj1 (proj1 (sweep_trajectories one_step_solver o1 o2)) E)
      as [E1 E2].
    split; [exact E1|]. split; [exact E2|].
    apply (proj2 (proj1 (proj2 (proj2 (proj2
             (sweep_trajectories one_step_solver o1 o2))))) E).
  - destruct (one_step_sweep [0.05; 0.02]) as (os & _ & E).
    destruct (one_step_sweep [0.02; 0.05]) as (os' & _ & E').
    change (Nb.before_sweep [0.05; 0.02]) with Nb.notebook in E.
    eexists. eexists.
    split; [exact E|]. split.
    { apply (proj1 (proj2 (proj2 (proj2 (proj2 (proj2
               (sweep_trajectories one_step_solver
                  (mkOdeResult [] [] 0%Z true) (mkOdeResult [] [] 0%Z true)))))))
               _ E). }
    split; [exact E'|].
    apply (proj2 (proj2 (proj2 (proj2 (proj2 (proj2
             (sweep_trajectories one_step_solver
                (mkOdeResult [] [] 0%Z true) (mkOdeResult [] [] 0%Z true)))))))
             _ E').
Defined.

(** C2 as written fails: the scenarios of a sweep share mutable state, and
    the order of the sweep shows in it.  Each turn rebinds the module-level
    [F] that [dxdt] reads and appends to the one list [results]; swept as
    [0.05, 0.02] the notebook is left with [F = 0.02], swept as
    [0.02, 0.05] with [F = 0.05], and [dxdt] evaluated in the two
    namespaces differs. *)
Lemma scenarios_share_the_namespace :
  exists g g',
    Nb.sweep one_step_solver Nb.notebook = (Ok tt, g) /\
    Nb.sweep one_step_solver (Nb.before_sweep [0.02; 0.05]) = (Ok tt, g') /\
    Nb.F Nb.notebook = 0.05 /\ Nb.F g = 0.02 /\ Nb.F g' = 0.05 /\
    length (Nb.results g) = 2%nat /\
    Nb.dxdt g 0 [0.05; 10; 0; 1] <> Nb.dxdt g' 0 [0.05; 10; 0; 1].
Proof.
  destruct (one_step_sweep [0.05; 0.02]) as (os & _ & E).
  destruct (one_step_sweep [0.02; 0.05]) as (os' & _ & E').
  change (Nb.before_sweep [0.05; 0.02]) with Nb.notebook in E.
  destruct (sweep_rebinds_F _ _ _ E) as (HF & HS & _).
  destruct (sweep_rebinds_F _ _ _ E') as (HF' & HS' & _).
  destruct (sweep_returned _ _ _ E) as (rs & Hrs & Hg).
  eexists. eexists.
  split; [exact E|]. split; [exact E'|].
  split; [reflexivity|]. split; [exact HF|]. split; [exact HF'|].
  split.
  { rewrite Hg, results_turns by (eapply Forall2_length; exact Hrs).
    apply Forall2_length in Hrs. simpl in *. congruence. }
  destruct HS as (Hm & HK & HY & _). destruct HS' as (Hm' & HK' & HY' & _).
  simpl in Hm, HK, HY, Hm', HK', HY', HF, HF'.
  rewrite !dxdt_defined by (rewrite <- ?HK, <- ?HY, <- ?HK', <- ?HY'; lra).
  cbv zeta. rewrite HF, HF'. intros H. injection H as _ _ _ H. lra.
Qed.

(** * The derivative in Python's numbers *)

(** ** Operations on Python floats and on NumPy numbers *)

Section PyOperations.

Variables (a b : Py.double).

Lemma mul_float_float :
  Py.mul (Py.PyFloat a) (Py.PyFloat b) = Ok (Py.PyFloat (Py.fmul a b)).
Proof. reflexivity. Qed.

Lemma sub_float_float :
  Py.sub (Py.PyFloat a) (Py.PyFloat b) = Ok (Py.PyFloat (Py.fsub a b)).
Proof. reflexivity. Qed.

Lemma add_float_float :
  Py.add (Py.PyFloat a) (Py.PyFloat b) = Ok (Py.PyFloat (Py.fadd a b)).
Proof. reflexivity. Qed.

Lemma truediv_float_float :
  Py.truediv (Py.PyFloat a) (Py.PyFloat b) =
  if Py.is_zero b then Raise ZeroDivisionError
  else Ok (Py.PyFloat (Py.fdiv a b)).
Proof. reflexivity. Qed.

Lemma truediv_one_float :
  Py.truediv (Py.PyInt 1) (Py.PyFloat b) =
  if Py.is_zero b then Raise ZeroDivisionError
  else Ok (Py.PyFloat (Py.fdiv (Py.of_int 1) b)).
Proof. reflexivity. Qed.

Lemma mul_numpy_numpy :
  Py.mul (Py.NpFloat a) (Py.NpFloat b) = Ok (Py.NpFloat (Py.fmul a b)).
Proof. reflexivity. Qed.

Lemma mul_float_numpy :
  Py.mul (Py.PyFloat a) (Py.NpFloat b) = Ok (Py.NpFloat (Py.fmul a b)).
Proof. reflexivity. Qed.

Lemma mul_numpy_float :
  Py.mul (Py.NpFloat a) (Py.PyFloat b) = Ok (Py.NpFloat (Py.fmul a b)).
Proof. reflexivity. Qed.

Lemma add_float_numpy :
  Py.add (Py.PyFloat a) (Py.NpFloat b) = Ok (Py.NpFloat (Py.fadd a b)).
Proof. reflexivity. Qed.

Lemma sub_numpy_numpy :
  Py.sub (Py.NpFloat a) (Py.NpFloat b) = Ok (Py.NpFloat (Py.fsub a b)).
Proof. reflexivity. Qed.

Lemma sub_float_numpy :
  Py.sub (Py.PyFloat a) (Py.NpFloat b) = Ok (Py.NpFloat (Py.fsub a b)).
Proof. reflexivity. Qed.

Lemma truediv_numpy_numpy :
  Py.truediv (Py.NpFloat a) (Py.NpFloat b) = Ok (Py.NpFloat (Py.fdiv a b)).
Proof. reflexivity. Qed.

Lemma truediv_one_numpy :
  Py.truediv (Py.PyInt 1) (Py.NpFloat b) =
  Ok (Py.NpFloat (Py.fdiv (Py.of_int 1) b)).
Proof. reflexivity. Qed.

(** A Python float times a Python number that has a double. *)
Lemma mul_float_python (n : Py.num) :
  Py.is_numpy n = false -> Py.as_double n = Ok b ->
  Py.mul (Py.PyFloat a) n = Ok (Py.PyFloat (Py.fmul a b)).
Proof.
  intros Hn Hd. destruct n as [z|d|d]; try discriminate;
    unfold Py.mul, Py.arith; rewrite Hd; reflexivity.
Qed.

End PyOperations.

Ltac py_floats :=
  repeat (progress
            (rewrite ?mul_float_float, ?sub_float_float, ?add_float_float,
               ?truediv_float_float, ?truediv_one_float; cbn [bind])).

Ltac py_numpy :=
  repeat (progress
            (rewrite ?mul_numpy_numpy, ?mul_float_numpy, ?mul_numpy_float,
               ?add_float_numpy, ?sub_numpy_numpy, ?sub_float_numpy,
               ?truediv_numpy_numpy, ?truediv_one_numpy, ?mul_float_float,
               ?truediv_one_float; cbn [bind])).

(** ** [dxdt] on a state of Python floats and on a state of NumPy numbers *)

Section PyDxdt.

Variable g : Py.globals.
Variables (m k yx yp f sfd : Py.double).
Variable t : Py.num.
Hypothesis floats : Py.float_bindings g m k yx yp f.
Hypothesis S_f_python : Py.is_numpy (Py.S_f g) = false.
Hypothesis S_f_double : Py.as_double (Py.S_f g) = Ok sfd.

Variables (X S P V : Py.double).

(** Python floats: the three divisions raise on a zero divisor, in the
    order in which the body meets them. *)
Lemma dxdt_python_floats :
  Py.dxdt g t [Py.PyFloat X; Py.PyFloat S; Py.PyFloat P; Py.PyFloat V] =
  if Py.is_zero (Py.fadd k S) then Raise ZeroDivisionError
  else if Py.is_zero V then Raise ZeroDivisionError
  else if Py.is_zero yx then Raise ZeroDivisionError
  else Ok (Py.returned_as Py.PyFloat
             (Py.reciprocal_form m k yx yp f sfd X S P V)).
Proof.
  destruct floats as (Hm & Hk & Hyx & Hyp & Hf).
  unfold Py.dxdt, Py.mu. rewrite Hm, Hk, Hyx, Hyp, Hf.
  py_floats.
  destruct (Py.is_zero (Py.fadd k S)); cbn [bind]; [reflexivity|].
  py_floats.
  destruct (Py.is_zero V); cbn [bind]; [reflexivity|].
  py_floats.
  rewrite (mul_float_python f sfd (Py.S_f g) S_f_python S_f_double). cbn [bind].
  destruct (Py.is_zero yx); cbn [bind]; [reflexivity|].
  py_floats. reflexivity.
Qed.

(** NumPy numbers, which is what the solver passes: only [1 / Y_xs], a
    division of Python numbers, can raise. *)
Lemma dxdt_numpy :
  Py.dxdt g t [Py.NpFloat X; Py.NpFloat S; Py.NpFloat P; Py.NpFloat V] =
  if Py.is_zero yx then Raise ZeroDivisionError
  else Ok (Py.returned_as Py.NpFloat
             (Py.reciprocal_form m k yx yp f sfd X S P V)).
Proof.
  destruct floats as (Hm & Hk & Hyx & Hyp & Hf).
  unfold Py.dxdt, Py.mu. rewrite Hm, Hk, Hyx, Hyp, Hf.
  py_numpy.
  rewrite (mul_float_python f sfd (Py.S_f g) S_f_python S_f_double). cbn [bind].
  destruct (Py.is_zero yx); cbn [bind]; [reflexivity|].
  py_numpy. reflexivity.
Qed.

End PyDxdt.

(** Whatever the numbers are, a returned list has four entries and the last
    one is the [F] of the namespace itself. *)
Lemma Py_dxdt_returns (g : Py.globals) (t : Py.num) (x d : list Py.num) :
  Py.dxdt g t x = Ok d -> exists dX dS dP, d = [dX; dS; dP; Py.F g].
Proof.
  destruct x as [|X [|S [|P [|V [|W x]]]]]; try discriminate.
  unfold Py.dxdt.
  repeat match goal with
         | |- bind ?c _ = Ok _ -> _ =>
             destruct c; cbn [bind]; [|discriminate]
         end.
  intros H. injection H as <-. eauto.
Qed.

Lemma Py_dxdt_last_entry (g : Py.globals) (t : Py.num) (x : list Py.num)
  (dX dS dP dV : Py.num) :
  Py.dxdt g t x = Ok [dX; dS; dP; dV] -> dV = Py.F g.
Proof.
  intros H. destruct (Py_dxdt_returns g t x _ H) as (a & b & c & E).
  congruence.
Qed.

Lemma Py_dxdt_same_model (g1 g2 : Py.globals) :
  Py.same_model g1 g2 -> forall t1 t2 x, Py.dxdt g1 t1 x = Py.dxdt g2 t2 x.
Proof.
  intros (Hm & HK & HY & Hp & HF & HS) t1 t2 x.
  unfold Py.dxdt, Py.mu. rewrite Hm, HK, HY, Hp, HF, HS. reflexivity.
Qed.

Lemma notebook_float_bindings :
  Py.float_bindings Py.notebook (Py.lit 0.2) (Py.lit 1.0) (Py.lit 0.5)
                    (Py.lit 0.2) (Py.lit 0.05).
Proof. unfold Py.float_bindings. repeat split. Qed.

(** ** The value of [dxdt] *)

(** C1 as amended.  On a state of four Python floats with [V], the rounded
    sum [K_s + S] and [Y_xs] not zero, and on every state of four NumPy
    numbers when [Y_xs] is not zero, [dxdt] returns, in the order
    [X, S, P, V], the list [1/V (V r_g - F X)],
    [1/V (F S_f - 1/Y_xs V r_g - F S)], [1/V (V r_p - F P)], [F], with
    [mu = mu_max S / (K_s + S)], [r_g = mu X], [r_p = Y_px r_g], every
    operation being the binary64 operation, taken in the order of the
    source; the dilution term [F * concentration] is in each of the three
    balances.  Read in exact arithmetic these expressions are the quotients
    [(V r_g - F X)/V], [(F S_f - (1/Y_xs) V r_g - F S)/V] and
    [(V r_p - F P)/V], that is, the rate minus the dilution
    [F * concentration / V]; in binary64 the product by [1/V] and the
    quotient by [V] need not agree in the last bits. *)
Theorem dxdt_value :
  (forall (g : Py.globals) (m k yx yp f sfd : Py.double) (t : Py.num)
          (X S P V : Py.double),
     Py.float_bindings g m k yx yp f ->
     Py.is_numpy (Py.S_f g) = false -> Py.as_double (Py.S_f g) = Ok sfd ->
     Py.is_zero yx = false ->
     (Py.is_zero V = false -> Py.is_zero (Py.fadd k S) = false ->
      Py.dxdt g t [Py.PyFloat X; Py.PyFloat S; Py.PyFloat P; Py.PyFloat V] =
        Ok (Py.returned_as Py.PyFloat
              (Py.reciprocal_form m k yx yp f sfd X S P V))) /\
     Py.dxdt g t [Py.NpFloat X; Py.NpFloat S; Py.NpFloat P; Py.NpFloat V] =
       Ok (Py.returned_as Py.NpFloat
             (Py.reciprocal_form m k yx yp f sfd X S P V)))
  /\
  (forall (g : Nb.globals) (t X S P V : R),
     V <> 0 -> Nb.K_s g + S <> 0 -> Nb.Y_xs g <> 0 ->
     let mu := Nb.mu_max g * S / (Nb.K_s g + S) in
     let r_g := mu * X in
     let r_p := Nb.Y_px g * r_g in
     Nb.dxdt g t [X; S; P; V] =
       Ok [ (V * r_g - Nb.F g * X) / V;
            (Nb.F g * Nb.S_f g - (1 / Nb.Y_xs g) * V * r_g - Nb.F g * S) / V;
            (V * r_p - Nb.F g * P) / V;
            Nb.F g ]
     /\ (V * r_g - Nb.F g * X) / V = r_g - Nb.F g * X / V
     /\ (V * r_p - Nb.F g * P) / V = r_p - Nb.F g * P / V
     /\ (Nb.F g * Nb.S_f g - (1 / Nb.Y_xs g) * V * r_g - Nb.F g * S) / V
        = Nb.F g * Nb.S_f g / V - (1 / Nb.Y_xs g) * r_g - Nb.F g * S / V).
Proof.
  split.
  - intros g m k yx yp f sfd t X S P V Hb Hn Hd Hyx. split.
    + intros HV HK.
      rewrite (dxdt_python_floats g m k yx yp f sfd t Hb Hn Hd), HK, HV, Hyx.
      reflexivity.
    + rewrite (dxdt_numpy g m k yx yp f sfd t Hb Hn Hd), Hyx. reflexivity.
  - intros g t X S P V HV HK HY.
    exact (proj2 (dxdt_exact_value g t X S P V HV) HK HY).
Qed.

(** The notebook's initial state as the solver passes it and as a list of
    Python floats, and the exact reading at the same state. *)
Lemma dxdt_value_witness :
  Py.dxdt Py.notebook (Py.NpFloat (Py.lit 0))
    [Py.NpFloat (Py.lit 0.05); Py.NpFloat (Py.lit 10); Py.NpFloat (Py.lit 0);
     Py.NpFloat (Py.lit 1)] =
  Ok (Py.returned_as Py.NpFloat
        (Py.reciprocal_form (Py.lit 0.2) (Py.lit 1.0) (Py.lit 0.5) (Py.lit 0.2)
           (Py.lit 0.05) (Py.of_int 10)
           (Py.lit 0.05) (Py.lit 10) (Py.lit 0) (Py.lit 1)))
  /\
  Py.dxdt Py.notebook (Py.PyFloat (Py.lit 0))
    [Py.PyFloat (Py.lit 0.05); Py.PyFloat (Py.lit 10); Py.PyFloat (Py.lit 0);
     Py.PyFloat (Py.lit 1)] =
  Ok (Py.returned_as Py.PyFloat
        (Py.reciprocal_form (Py.lit 0.2) (Py.lit 1.0) (Py.lit 0.5) (Py.lit 0.2)
           (Py.lit 0.05) (Py.of_int 10)
           (Py.lit 0.05) (Py.lit 10) (Py.lit 0) (Py.lit 1)))
  /\
  Nb.dxdt Nb.notebook 0 [0.05; 10; 0; 1] =
    Ok [ (1 * (0.2 * 10 / (1.0 + 10) * 0.05) - 0.05 * 0.05) / 1;
         (0.05 * 10 - (1 / 0.5) * 1 * (0.2 * 10 / (1.0 + 10) * 0.05) - 0.05 * 10) / 1;
         (1 * (0.2 * (0.2 * 10 / (1.0 + 10) * 0.05)) - 0.05 * 0) / 1;
         0.05 ].
Proof.
  split; [|split].
  - apply (proj2 (proj1 dxdt_value Py.notebook (Py.lit 0.2) (Py.lit 1.0)
             (Py.lit 0.5) (Py.lit 0.2) (Py.lit 0.05) (Py.of_int 10)
             (Py.NpFloat (Py.lit 0))
             (Py.lit 0.05) (Py.lit 10) (Py.lit 0) (Py.lit 1)
             notebook_float_bindings eq_refl eq_refl eq_refl)).
  - apply (proj1 (proj1 dxdt_value Py.notebook (Py.lit 0.2) (Py.lit 1.0)
             (Py.lit 0.5) (Py.lit 0.2) (Py.lit 0.05) (Py.of_int 10)
             (Py.PyFloat (Py.lit 0))
             (Py.lit 0.05) (Py.lit 10) (Py.lit 0) (Py.lit 1)
             notebook_float_bindings eq_refl eq_refl eq_refl));
      vm_compute; reflexivity.
  - apply (proj1 (proj2 dxdt_value Nb.notebook 0 0.05 10 0 1
             ltac:(lra) ltac:(simpl; lra) ltac:(simpl; lra))).
Defined.

(** C1 as written fails: the returned numbers are not exactly the claimed
    quotients.  With the notebook's parameters and inputs and the state
    [[1.0, 1.0, 1.0, 3.0]], [dxdt] returns [0.083333333333333343] for
    [dX/dt], and the quotient [(V r_g - F X)/V] is
    [0.083333333333333356]. *)
Lemma dxdt_is_not_the_quotient :
  exists dX dS dP dV qX qS qP qV,
    Py.dxdt Py.notebook (Py.PyFloat (Py.lit 0))
      [Py.PyFloat (Py.lit 1); Py.PyFloat (Py.lit 1); Py.PyFloat (Py.lit 1);
       Py.PyFloat (Py.lit 3)] = Ok [Py.PyFloat dX; dS; dP; dV] /\
    Py.quotient_form (Py.lit 0.2) (Py.lit 1.0) (Py.lit 0.5) (Py.lit 0.2)
      (Py.lit 0.05) (Py.of_int 10)
      (Py.lit 1) (Py.lit 1) (Py.lit 1) (Py.lit 3) = [qX; qS; qP; qV] /\
    dX = Py.lit 0.083333333333333343 /\
    qX = Py.lit 0.083333333333333356 /\
    Py.lt dX qX = true /\ dX <> qX.
Proof.
  do 8 eexists.
  split; [vm_compute; reflexivity|].
  split; [vm_compute; reflexivity|].
  split; [vm_compute; reflexivity|].
  split; [vm_compute; reflexivity|].
  split; [vm_compute; reflexivity|].
  vm_compute. discriminate.
Qed.

(** ** When [dxdt] raises *)




(** ** Monod kinetics in doubles *)

(** C7 as amended.  Read in exact arithmetic, with [mu_max > 0] and
    [K_s > 0], the growth rate [mu(S) = mu_max S/(K_s + S)] of the model is
    defined for every [S >= 0], does not decrease when [S] grows, never
    exceeds [mu_max], and is zero at [S = 0].  In the doubles that the code
    computes with, [mu] is zero at a zero [S] (a float zero of either sign,
    or the integer 0) for all finite positive [mu_max] and [K_s]; the
    monotonicity and the bound are not claimed of these doubles. *)
Theorem Monod_rate :
  (forall (g : Nb.globals) (S1 S2 : R),
     0 < Nb.mu_max g -> 0 < Nb.K_s g -> 0 <= S1 -> S1 <= S2 ->
     exists m1 m2,
       Nb.mu g S1 = Ok m1 /\ Nb.mu g S2 = Ok m2 /\
       m1 = Nb.mu_max g * S1 / (Nb.K_s g + S1) /\
       m2 = Nb.mu_max g * S2 / (Nb.K_s g + S2) /\
       m1 <= m2 /\ m2 <= Nb.mu_max g /\
       Nb.mu g 0 = Ok 0)
  /\
  (forall (g : Py.globals) (mm km : positive) (me ke : Z) (s : bool),
     Py.mu_max g = Py.PyFloat (S754_finite false mm me) ->
     Py.K_s g = Py.PyFloat (S754_finite false km ke) ->
     Py.mu g (Py.PyFloat (S754_zero s)) = Ok (Py.PyFloat (S754_zero s)) /\
     Py.mu g (Py.NpFloat (S754_zero s)) = Ok (Py.NpFloat (S754_zero s)) /\
     Py.mu g (Py.PyInt 0) = Ok (Py.PyFloat (S754_zero false))).
Proof.
  split; [exact mu_exact_monotone_bounded|].
  intros g mm km me ke s Hm HK. unfold Py.mu. rewrite Hm, HK.
  destruct s; repeat split; reflexivity.
Qed.

Lemma Monod_rate_witness :
  (exists m1 m2,
     Nb.mu Nb.notebook 1 = Ok m1 /\ Nb.mu Nb.notebook 10 = Ok m2 /\
     m1 <= m2 /\ m2 <= 0.2) /\
  Py.mu Py.notebook (Py.PyFloat (Py.lit 0)) = Ok (Py.PyFloat (Py.lit 0)).
Proof.
  split.
  - destruct (proj1 Monod_rate Nb.notebook 1 10
                ltac:(simpl; lra) ltac:(simpl; lra) ltac:(lra) ltac:(lra))
      as (m1 & m2 & E1 & E2 & _ & _ & Hle & Hb & _).
    exists m1, m2. repeat split; assumption.
  - apply (proj2 Monod_rate Py.notebook 7205759403792794%positive
             4503599627370496%positive (-55)%Z (-52)%Z false); vm_compute; reflexivity.
Defined.

(** C7 as written fails for the mu that the code computes.  With the
    notebook's [mu_max = 0.2] and [K_s = 1.0]: at [S = 3 * 2^53] the rate is
    [0.20000000000000004], above [mu_max]; and between
    [S = 1 + 2^-52] and the larger [S = 1 + 2^-51] the rate goes down, from
    [0.10000000000000003] to [0.10000000000000002]. *)
Lemma Monod_rate_in_doubles :
  (exists m,
     Py.mu Py.notebook (Py.PyFloat (Py.of_int (3 * 2 ^ 53)%Z)) = Ok (Py.PyFloat m) /\
     m = Py.lit 0.20000000000000004 /\
     Py.lt (Py.lit 0.2) m = true)
  /\
  (exists S1 S2 m1 m2,
     S1 = Py.fadd (Py.lit 1) (Py.lit 0x1p-52) /\
     S2 = Py.fadd (Py.lit 1) (Py.lit 0x1p-51) /\
     Py.lt (Py.lit 0) S1 = true /\ Py.lt S1 S2 = true /\
     Py.mu Py.notebook (Py.PyFloat S1) = Ok (Py.PyFloat m1) /\
     Py.mu Py.notebook (Py.PyFloat S2) = Ok (Py.PyFloat m2) /\
     m1 = Py.lit 0.10000000000000003 /\
     m2 = Py.lit 0.10000000000000002 /\
     Py.lt m2 m1 = true).
Proof.
  split.
  - eexists. repeat split; vm_compute; reflexivity.
  - do 4 eexists.
    split; [reflexivity|]. split; [reflexivity|].
    repeat split; vm_compute; reflexivity.
Qed.

(** ** The closed reactor *)

Lemma derivable_pt_lim_ext (f h : R -> R) (t l : R) :
  (forall s, f s = h s) -> derivable_pt_lim f t l -> derivable_pt_lim h t l.
Proof.
  intros E D eps Heps. destruct (D eps Heps) as [delta Hd]. exists delta.
  intros x Hx Hlt. rewrite <- !E. apply Hd; assumption.
Qed.

Lemma exp_scaled_derivative (c k t : R) :
  derivable_pt_lim (fun s => c * exp (k * s)) t (c * (k * exp (k * t))).
Proof.
  apply (derivable_pt_lim_scal (fun s => exp (k * s)) c).
  assert (D := derivable_pt_lim_comp (fun s => k * s) exp t k (exp (k * t))
                 (linear_derivative k t) (derivable_pt_lim_exp (k * t))).
  replace (k * exp (k * t)) with (exp (k * t) * k) by ring.
  exact D.
Qed.

Lemma exp_two_tenths (t : R) : 0 <= t <= 10 -> 0 < exp (0.2 * t) <= 9.
Proof.
  intros Ht. split; [apply exp_pos|].
  assert (H1 := exp_le_3). assert (P1 := exp_pos 1).
  assert (E2 : exp 2 = exp 1 * exp 1).
  { replace 2 with (1 + 1) by lra. apply exp_plus. }
  assert (H2 : exp 2 <= 9) by (rewrite E2; nra).
  destruct (Rle_lt_or_eq_dec (0.2 * t) 2 ltac:(lra)) as [Hlt|Heq].
  - apply exp_increasing in Hlt. lra.
  - rewrite Heq. exact H2.
Qed.

(** The closed reactor with biomass: exponential growth on the substrate. *)
Lemma unsaturated_batch_solves :
  solves unsaturated_batch 0 10 batch_X batch_S batch_P batch_V.
Proof.
  intros t Ht.
  assert (B := exp_two_tenths t Ht).
  exists (0.05 * (0.2 * exp (0.2 * t))),
         (- (1 / 0.5) * (0.05 * (0.2 * exp (0.2 * t)))),
         (0.2 * (0.05 * (0.2 * exp (0.2 * t)))), 0.
  split; [|split; [|split; [|split]]].
  - unfold batch_S, batch_P, batch_V, batch_X.
    rewrite dxdt_defined by (simpl; lra). cbv zeta. simpl.
    state_eq; lra.
  - apply exp_scaled_derivative.
  - apply (derivable_pt_lim_ext
             (fun s => (10 + 1 / 0.5 * 0.05) + (- (1 / 0.5)) * batch_X s)).
    { intros s. unfold batch_S. ring. }
    replace (- (1 / 0.5) * (0.05 * (0.2 * exp (0.2 * t))))
      with (0 + - (1 / 0.5) * (0.05 * (0.2 * exp (0.2 * t)))) by ring.
    apply (derivable_pt_lim_plus (fun _ => 10 + 1 / 0.5 * 0.05)
             (fun s => - (1 / 0.5) * batch_X s));
      [apply derivable_pt_lim_const|].
    apply (derivable_pt_lim_scal batch_X (- (1 / 0.5))).
    apply exp_scaled_derivative.
  - apply (derivable_pt_lim_ext
             (fun s => (- (0.2 * 0.05)) + 0.2 * batch_X s)).
    { intros s. unfold batch_P. ring. }
    replace (0.2 * (0.05 * (0.2 * exp (0.2 * t))))
      with (0 + 0.2 * (0.05 * (0.2 * exp (0.2 * t)))) by ring.
    apply (derivable_pt_lim_plus (fun _ => - (0.2 * 0.05))
             (fun s => 0.2 * batch_X s));
      [apply derivable_pt_lim_const|].
    apply (derivable_pt_lim_scal batch_X 0.2).
    apply exp_scaled_derivative.
  - apply derivable_pt_lim_const.
Qed.

Lemma fmul_zero_l (z b : Py.double) :
  Py.is_zero z = true -> Py.is_finite b = true ->
  Py.is_zero (Py.fmul z b) = true.
Proof. destruct z, b; try discriminate; reflexivity. Qed.

Lemma fsub_zero_l (z : Py.double) (s : bool) (m : positive) (e : Z) :
  Py.is_zero z = true ->
  Py.fsub z (S754_finite s m e) = S754_finite (negb s) m e.
Proof. destruct z; try discriminate; reflexivity. Qed.

Lemma fsub_zero_r (s : bool) (m : positive) (e : Z) (z : Py.double) :
  Py.is_zero z = true ->
  Py.fsub (S754_finite s m e) z = S754_finite s m e.
Proof. destruct z; try discriminate; reflexivity. Qed.

(** Read in exact arithmetic, with [F = 0] and [V > 0] the substrate entry
    is [-(1 / Y_xs) r_g] and the volume entry [0]; hence along every exact
    trajectory of the closed reactor the volume is constant and the
    substrate consumed is [1 / Y_xs] times the biomass produced. *)
Lemma closed_reactor_exact (g : Nb.globals) :
  Nb.F g = 0 ->
  (forall t X S P V,
     0 < V ->
     Nb.dxdt g t [X; S; P; V] =
       (m <- Nb.mu g S ;;
        iY <- truediv 1 (Nb.Y_xs g) ;;
        let r_g := m * X in
        Ok [r_g; - iY * r_g; Nb.Y_px g * r_g; 0])) /\
  (forall a b yX yS yP yV,
     solves g a b yX yS yP yV ->
     forall t1 t2, a <= t1 <= b -> a <= t2 <= b ->
       yV t1 = yV t2 /\
       yS t1 - yS t2 = 1 / Nb.Y_xs g * (yX t2 - yX t1)).
Proof.
  intros HF. split.
  - intros t X S P V HV.
    assert (HV' : V <> 0) by lra.
    unfold Nb.mu.
    destruct (Req_dec_T (Nb.K_s g + S) 0) as [HK|HK].
    { rewrite (dxdt_Monod_zero g t X S P V HK), (truediv_zero _ _ HK). reflexivity. }
    rewrite (truediv_ok _ _ HK). cbn [bind].
    destruct (Req_dec_T (Nb.Y_xs g) 0) as [HY|HY].
    { rewrite (dxdt_yield_zero g t X S P V HY), (truediv_zero _ _ HY). reflexivity. }
    rewrite (truediv_ok _ _ HY). cbn [bind]. cbv zeta.
    rewrite (dxdt_defined g t X S P V HV' HK HY). cbv zeta. rewrite HF.
    state_eq.
  - intros a b yX yS yP yV sol t1 t2 H1 H2.
    assert (V1 := volume_minus_feed_constant g a b yX yS yP yV sol t1 H1).
    assert (V2 := volume_minus_feed_constant g a b yX yS yP yV sol t2 H2).
    assert (S1 := substrate_biomass_constant g a b yX yS yP yV sol HF t1 H1).
    assert (S2 := substrate_biomass_constant g a b yX yS yP yV sol HF t2 H2).
    rewrite HF in V1, V2. split; lra.
Qed.

(** C6 as amended.  With [F] bound to a float zero, the volume entry of
    every list that [dxdt] returns is that zero, whatever the state.  On a
    state of NumPy numbers with a finite [S], and with a finite [S_f], the
    feed term [F S_f] and the dilution term [F S] are zeros and leave no
    trace in the substrate entry: where the consumption
    [c = 1/Y_xs V r_g], with [r_g = mu X], is a finite double other than
    zero, the substrate entry is the product of [1/V] and [-c], which need
    not be the double of [-(1 / Y_xs) r_g].  Read in exact arithmetic, with [F = 0] and a state of
    volume [V > 0], [dxdt] returns, where [mu] and [1 / Y_xs] exist, the
    list whose substrate entry is [-(1 / Y_xs) r_g].  Along every exact
    trajectory of the closed reactor the volume is constant and, between
    any two times, the substrate consumed is [1 / Y_xs] times the biomass
    produced. *)
Theorem closed_reactor :
  (forall (g : Py.globals) (s : bool) (t : Py.num) (x : list Py.num)
          (dX dS dP dV : Py.num),
     Py.F g = Py.PyFloat (S754_zero s) ->
     Py.dxdt g t x = Ok [dX; dS; dP; dV] -> dV = Py.PyFloat (S754_zero s))
  /\
  (forall (g : Py.globals) (m k yx yp sfd : Py.double) (t : Py.num)
          (X S P V : Py.double) (sF sc : bool) (mc : positive) (ec : Z),
     Py.float_bindings g m k yx yp (S754_zero sF) ->
     Py.is_numpy (Py.S_f g) = false -> Py.as_double (Py.S_f g) = Ok sfd ->
     Py.is_finite sfd = true -> Py.is_finite S = true ->
     Py.is_zero yx = false ->
     let r_g := Py.fmul (Py.fdiv (Py.fmul m S) (Py.fadd k S)) X in
     Py.fmul (Py.fmul (Py.fdiv (Py.of_int 1) yx) V) r_g
       = S754_finite sc mc ec ->
     exists dX dP,
       Py.dxdt g t [Py.NpFloat X; Py.NpFloat S; Py.NpFloat P; Py.NpFloat V] =
         Ok [Py.NpFloat dX;
             Py.NpFloat (Py.fmul (Py.fdiv (Py.of_int 1) V)
                                 (Py.fopp (S754_finite sc mc ec)));
             Py.NpFloat dP;
             Py.PyFloat (S754_zero sF)])
  /\
  (forall g : Nb.globals,
     Nb.F g = 0 ->
     (forall t X S P V,
        0 < V ->
        Nb.dxdt g t [X; S; P; V] =
          (m <- Nb.mu g S ;;
           iY <- truediv 1 (Nb.Y_xs g) ;;
           let r_g := m * X in
           Ok [r_g; - iY * r_g; Nb.Y_px g * r_g; 0])) /\
     (forall a b yX yS yP yV,
        solves g a b yX yS yP yV ->
        forall t1 t2, a <= t1 <= b -> a <= t2 <= b ->
          yV t1 = yV t2 /\
          yS t1 - yS t2 = 1 / Nb.Y_xs g * (yX t2 - yX t1))).
Proof.
  split; [|split].
  - intros g s t x dX dS dP dV HF H.
    rewrite <- HF. apply (Py_dxdt_last_entry g t x dX dS dP dV H).
  - intros g m k yx yp sfd t X S P V sF sc mc ec Hb Hn Hd Hsf HS Hyx r_g Hc.
    rewrite (dxdt_numpy g m k yx yp (S754_zero sF) sfd t Hb Hn Hd), Hyx.
    unfold Py.reciprocal_form, Py.returned_as. cbv zeta. fold r_g.
    rewrite Hc.
    rewrite (fsub_zero_l (Py.fmul (S754_zero sF) sfd) sc mc ec)
      by (apply fmul_zero_l; [reflexivity|exact Hsf]).
    rewrite (fsub_zero_r (negb sc) mc ec (Py.fmul (S754_zero sF) S))
      by (apply fmul_zero_l; [reflexivity|exact HS]).
    eexists. eexists. reflexivity.
  - exact closed_reactor_exact.
Qed.

(** The notebook's initial state with the feed shut, and ten hours of
    exponential growth in the closed reactor: the substrate consumed is
    twice the biomass grown. *)
Lemma closed_reactor_witness :
  (exists dX dS dP,
     Py.dxdt (Py.bind_F (Py.PyFloat (Py.lit 0)) Py.notebook)
       (Py.NpFloat (Py.lit 0))
       [Py.NpFloat (Py.lit 0.05); Py.NpFloat (Py.lit 10);
        Py.NpFloat (Py.lit 0); Py.NpFloat (Py.lit 1)]
     = Ok [dX; dS; dP; Py.PyFloat (Py.lit 0)]) /\
  (exists dX dP,
     Py.dxdt (Py.bind_F (Py.PyFloat (Py.lit 0)) Py.notebook)
       (Py.NpFloat (Py.lit 0))
       [Py.NpFloat (Py.lit 0.05); Py.NpFloat (Py.lit 10);
        Py.NpFloat (Py.lit 0); Py.NpFloat (Py.lit 3)]
     = Ok [Py.NpFloat dX;
           Py.NpFloat (Py.fopp (Py.lit 0.018181818181818181));
           Py.NpFloat dP; Py.PyFloat (Py.lit 0)]) /\
  solves unsaturated_batch 0 10 batch_X batch_S batch_P batch_V /\
  batch_V 0 = batch_V 10 /\
  batch_S 0 - batch_S 10 = 1 / 0.5 * (batch_X 10 - batch_X 0) /\
  batch_X 0 < batch_X 10.
Proof.
  split; [|split; [|split; [exact unsaturated_batch_solves|]]].
  2: { assert (Hc : exists sc mc ec,
                  Py.fmul (Py.fmul (Py.fdiv (Py.of_int 1) (Py.lit 0.5)) (Py.lit 3))
                    (Py.fmul (Py.fdiv (Py.fmul (Py.lit 0.2) (Py.lit 10))
                                      (Py.fadd (Py.lit 1.0) (Py.lit 10)))
                             (Py.lit 0.05))
                  = S754_finite sc mc ec)
         by (do 3 eexists; vm_compute; reflexivity).
       destruct Hc as (sc & mc & ec & Hc).
       destruct (proj1 (proj2 closed_reactor)
                   (Py.bind_F (Py.PyFloat (Py.lit 0)) Py.notebook)
                   (Py.lit 0.2) (Py.lit 1.0) (Py.lit 0.5) (Py.lit 0.2)
                   (Py.of_int 10) (Py.NpFloat (Py.lit 0))
                   (Py.lit 0.05) (Py.lit 10) (Py.lit 0) (Py.lit 3)
                   false sc mc ec
                   ltac:(unfold Py.float_bindings; repeat split)
                   eq_refl eq_refl eq_refl eq_refl eq_refl Hc)
         as (dX & dP & E).
       exists dX, dP. rewrite E, <- Hc. vm_compute. reflexivity. }
  - assert (E : exists dX dS dP dV,
               Py.dxdt (Py.bind_F (Py.PyFloat (Py.lit 0)) Py.notebook)
                 (Py.NpFloat (Py.lit 0))
                 [Py.NpFloat (Py.lit 0.05); Py.NpFloat (Py.lit 10);
                  Py.NpFloat (Py.lit 0); Py.NpFloat (Py.lit 1)]
               = Ok [dX; dS; dP; dV]).
    { do 4 eexists. vm_compute. reflexivity. }
    destruct E as (dX & dS & dP & dV & E).
    exists dX, dS, dP.
    rewrite E. do 2 f_equal.
    rewrite (proj1 closed_reactor
               (Py.bind_F (Py.PyFloat (Py.lit 0)) Py.notebook) false
               _ _ dX dS dP dV eq_refl E).
    reflexivity.
  - destruct (proj2 (proj2 (proj2 closed_reactor) unsaturated_batch eq_refl)
                0 10 batch_X batch_S batch_P batch_V unsaturated_batch_solves
                0 10 ltac:(lra) ltac:(lra)) as [HV HS].
    split; [exact HV|]. split; [exact HS|].
    unfold batch_X. rewrite Rmult_0_r.
    assert (H : exp 0 < exp (0.2 * 10)) by (apply exp_increasing; lra).
    lra.
Defined.

(** C6 as written fails for the numbers that are computed: with [F = 0.0],
    the notebook's parameters and the state [[0.05, 10.0, 0.0, 3.0]],
    whose volume is positive, [dxdt] returns [-0.018181818181818181] for
    [dS/dt], and [-(1 / Y_xs) r_g] is [-0.018181818181818184]. *)
Lemma closed_reactor_substrate_in_doubles :
  exists dX dS dP dV r_g,
    Py.lt (Py.lit 0) (Py.lit 3) = true /\
    Py.dxdt (Py.bind_F (Py.PyFloat (Py.lit 0)) Py.notebook)
      (Py.PyFloat (Py.lit 0))
      [Py.PyFloat (Py.lit 0.05); Py.PyFloat (Py.lit 10);
       Py.PyFloat (Py.lit 0); Py.PyFloat (Py.lit 3)]
    = Ok [dX; Py.PyFloat dS; dP; dV] /\
    r_g = Py.fmul (Py.fdiv (Py.fmul (Py.lit 0.2) (Py.lit 10))
                           (Py.fadd (Py.lit 1.0) (Py.lit 10)))
                  (Py.lit 0.05) /\
    dS = Py.fopp (Py.lit 0.018181818181818181) /\
    Py.fmul (Py.fopp (Py.fdiv (Py.of_int 1) (Py.lit 0.5))) r_g
      = Py.fopp (Py.lit 0.018181818181818184) /\
    dS <> Py.fmul (Py.fopp (Py.fdiv (Py.of_int 1) (Py.lit 0.5))) r_g.
Proof.
  do 5 eexists.
  split; [vm_compute; reflexivity|].
  split; [vm_compute; reflexivity|].
  split; [reflexivity|].
  split; [vm_compute; reflexivity|].
  split; [vm_compute; reflexivity|].
  vm_compute. discriminate.
Qed.

(** ** The volume *)









(** ** What [dxdt] reads *)

(** C3 as amended.  The result of a call of [dxdt], a list or an exception,
    is fixed by the state passed and by the bindings, at the time of the
    call, of the six module-level names [mu_max], [K_s], [Y_xs], [Y_px],
    [F] and [S_f]: two calls with the same state under namespaces that bind
    these six names alike give the same result, whatever the time
    arguments are and whatever else the namespaces hold.  The scenario is
    not an argument: when two calls with the same arguments return the same
    list, [F] was bound to the same number in both, so that evaluations
    for two scenarios cannot be made under one binding of [F]. *)
Theorem dxdt_reads_six_names :
  (forall (g1 g2 : Py.globals) (t1 t2 : Py.num) (x : list Py.num),
     Py.same_model g1 g2 -> Py.dxdt g1 t1 x = Py.dxdt g2 t2 x)
  /\
  (forall (g : Py.globals) (v1 v2 t1 t2 : Py.num) (x d : list Py.num),
     Py.dxdt (Py.bind_F v1 g) t1 x = Ok d ->
     Py.dxdt (Py.bind_F v2 g) t2 x = Ok d -> v1 = v2)
  /\
  (forall (g1 g2 : Nb.globals) (t1 t2 : R) (x : list R),
     same_model g1 g2 -> Nb.dxdt g1 t1 x = Nb.dxdt g2 t2 x).
Proof.
  split; [|split].
  - intros g1 g2 t1 t2 x H. apply Py_dxdt_same_model. exact H.
  - intros g v1 v2 t1 t2 x d H1 H2.
    destruct (Py_dxdt_returns _ _ _ _ H1) as (a1 & b1 & c1 & E1).
    destruct (Py_dxdt_returns _ _ _ _ H2) as (a2 & b2 & c2 & E2).
    rewrite E1 in E2. injection E2 as _ _ _ E. exact E.
  - intros g1 g2 t1 t2 x H. apply dxdt_same_model. exact H.
Qed.

(** The notebook and a namespace that differs from it in the module-level
    [V] and [x0], which [dxdt] does not read. *)
Lemma dxdt_reads_six_names_witness :
  Py.dxdt Py.notebook (Py.PyInt 0) (Py.x0 Py.notebook) =
  Py.dxdt
    {| Py.mu_max := Py.PyFloat (Py.lit 0.2); Py.K_s := Py.PyFloat (Py.lit 1.0);
       Py.Y_xs := Py.PyFloat (Py.lit 0.5); Py.Y_px := Py.PyFloat (Py.lit 0.2);
       Py.X := Py.PyFloat (Py.lit 0.05); Py.S := Py.PyInt 10;
       Py.P := Py.PyInt 0; Py.V := Py.PyInt 2;
       Py.x0 := []; Py.F := Py.PyFloat (Py.lit 0.05); Py.S_f := Py.PyInt 10 |}
    (Py.PyInt 30) (Py.x0 Py.notebook)
  /\
  (forall v d,
     Py.dxdt (Py.bind_F v Py.notebook) (Py.PyInt 0) (Py.x0 Py.notebook) = Ok d ->
     Py.dxdt Py.notebook (Py.PyInt 30) (Py.x0 Py.notebook) = Ok d ->
     v = Py.PyFloat (Py.lit 0.05))
  /\
  Nb.dxdt Nb.notebook 0 [0.05; 10; 0; 1] =
  Nb.dxdt (with_x0 [1; 2; 3; 4] Nb.notebook) 30 [0.05; 10; 0; 1].
Proof.
  split; [|split].
  - apply (proj1 dxdt_reads_six_names).
    unfold Py.same_model. repeat split.
  - intros v d H1 H2.
    apply (proj1 (proj2 dxdt_reads_six_names) Py.notebook v
             (Py.PyFloat (Py.lit 0.05)) (Py.PyInt 0) (Py.PyInt 30)
             (Py.x0 Py.notebook) d H1).
    exact H2.
  - apply (proj2 (proj2 dxdt_reads_six_names)).
    unfold same_model. simpl. repeat split.
Defined.

(** C3 as written fails: the scenario is not among the arguments, and the
    result depends on more than the arguments.  The same call, time [0] and
    the notebook's initial state, returns one list while [F] is bound to
    [0.05] and another while it is bound to [0.02], as it is once the sweep
    is over. *)
Lemma dxdt_depends_on_the_binding_of_F :
  exists d1 d2,
    Py.dxdt Py.notebook (Py.PyInt 0) (Py.x0 Py.notebook) = Ok d1 /\
    Py.dxdt (Py.bind_F (Py.PyFloat (Py.lit 0.02)) Py.notebook)
            (Py.PyInt 0) (Py.x0 Py.notebook) = Ok d2 /\
    d1 <> d2.
Proof.
  do 2 eexists.
  split; [vm_compute; reflexivity|].
  split; [vm_compute; reflexivity|].
  discriminate.
Qed.

(** * Further properties of the notebook *)

(** ** Which states [dxdt] unpacks *)

Lemma as_double_never_ValueError (n : Py.num) :
  Py.as_double n <> Raise ValueError.
Proof.
  destruct n as [z|d|d]; cbn [Py.as_double]; try discriminate.
  destruct (Py.is_infinite (Py.of_int z)); discriminate.
Qed.

Lemma arith_never_ValueError zop fop (a b : Py.num) :
  Py.arith zop fop a b <> Raise ValueError.
Proof.
  assert (H : (x <- Py.as_double a ;; y <- Py.as_double b ;;
               Ok (Py.wrap a b (fop x y))) <> Raise ValueError).
  { assert (Ha := as_double_never_ValueError a).
    assert (Hb := as_double_never_ValueError b).
    destruct (Py.as_double a) as [x|e]; cbn [bind]; [|congruence].
    destruct (Py.as_double b) as [y|e]; cbn [bind]; [discriminate|congruence]. }
  unfold Py.arith. destruct a, b; try exact H. discriminate.
Qed.

Lemma truediv_never_ValueError (a b : Py.num) :
  Py.truediv a b <> Raise ValueError.
Proof.
  assert (H : (x <- Py.as_double a ;; y <- Py.as_double b ;;
               if orb (Py.is_numpy a) (Py.is_numpy b)
               then Ok (Py.NpFloat (Py.fdiv x y))
               else if Py.is_zero y then Raise ZeroDivisionError
                    else Ok (Py.PyFloat (Py.fdiv x y))) <> Raise ValueError).
  { assert (Ha := as_double_never_ValueError a).
    assert (Hb := as_double_never_ValueError b).
    destruct (Py.as_double a) as [x|e]; cbn [bind]; [|congruence].
    destruct (Py.as_double b) as [y|e]; cbn [bind]; [|congruence].
    destruct (orb (Py.is_numpy a) (Py.is_numpy b)); [discriminate|].
    destruct (Py.is_zero y); discriminate. }
  unfold Py.truediv. destruct a as [x|x|x], b as [y|y|y]; try exact H.
  destruct (Z.eqb y 0); [discriminate|].
  destruct (Py.is_infinite _); discriminate.
Qed.

Lemma bind_never_ValueError {A B} (c : result A) (k : A -> result B) :
  c <> Raise ValueError -> (forall a, k a <> Raise ValueError) ->
  bind c k <> Raise ValueError.
Proof.
  intros Hc Hk. destruct c as [a|e]; cbn [bind]; [apply Hk|].
  intros H. apply Hc. injection H as ->. reflexivity.
Qed.

Ltac no_ValueError :=
  first [ apply arith_never_ValueError
        | apply truediv_never_ValueError
        | discriminate
        | apply bind_never_ValueError; [no_ValueError|intros ?; no_ValueError] ].

(** X1.  [dxdt] raises [ValueError] exactly on a state that has not four
    entries, whatever the numbers in it and whatever the parameters are
    bound to, because the unpacking precedes every operation and no
    operation on numbers raises it; what [dxdt] returns comes from a state
    of four entries, and has four entries. *)
Theorem dxdt_exceptions (g : Py.globals) (t : Py.num) (x : list Py.num) :
  (Py.dxdt g t x = Raise ValueError <-> length x <> 4%nat) /\
  (forall d, Py.dxdt g t x = Ok d -> length x = 4%nat /\ length d = 4%nat).
Proof.
  assert (Four : forall X S P V, Py.dxdt g t [X; S; P; V] <> Raise ValueError).
  { intros X S P V. unfold Py.dxdt, Py.mu. no_ValueError. }
  split.
  - destruct x as [|X [|S [|P [|V [|W x]]]]];
      try (split; [intros _; simpl; discriminate|reflexivity]).
    split; [intros H; destruct (Four X S P V H)|intros H; destruct H; reflexivity].
  - intros d H. destruct (Py_dxdt_returns g t x d H) as (dX & dS & dP & ->).
    split; [|reflexivity].
    destruct x as [|X [|S [|P [|V [|W x]]]]]; try discriminate. reflexivity.
Qed.

(** ** Amounts along a trajectory *)

Section Amounts.

Variable g : Nb.globals.
Variables (a b : R) (yX yS yP yV : R -> R).
Hypothesis sol : solves g a b yX yS yP yV.

(** At each time of the interval the state is one on which no division
    fails, and the derivatives are the expressions of the source. *)
Lemma solves_at (t : R) :
  a <= t <= b ->
  exists dX dS dP dV,
    (yV t <> 0 /\ Nb.K_s g + yS t <> 0 /\ Nb.Y_xs g <> 0) /\
    derivable_pt_lim yX t dX /\ derivable_pt_lim yS t dS /\
    derivable_pt_lim yP t dP /\ derivable_pt_lim yV t dV /\
    yV t * dX + dV * yX t
      = yV t * (Nb.mu_max g * yS t / (Nb.K_s g + yS t) * yX t) /\
    yV t * dP + dV * yP t
      = yV t * (Nb.Y_px g * (Nb.mu_max g * yS t / (Nb.K_s g + yS t) * yX t)) /\
    yV t * dS + dV * yS t
      = Nb.F g * Nb.S_f g
        - yV t * (Nb.mu_max g * yS t / (Nb.K_s g + yS t) * yX t) / Nb.Y_xs g.
Proof.
  intros Ht. destruct (sol t Ht) as (dX & dS & dP & dV & E & DX & DS & DP & DV).
  exists dX, dS, dP, dV.
  destruct (proj2 (dxdt_raises_cases g t (yX t) (yS t) (yP t) (yV t)) _ E)
    as (HV & HK & HY).
  split; [repeat split; assumption|].
  repeat (split; [assumption|]).
  destruct (dxdt_raises_cases g t (yX t) (yS t) (yP t) (yV t)) as [[Hbad|Hgood] _].
  { rewrite Hbad in E. discriminate. }
  rewrite Hgood in E. cbv zeta in E. injection E as <- <- <- <-.
  repeat split; field; repeat split; assumption.
Qed.

Lemma product_minus_yield_constant :
  forall t, a <= t <= b ->
    yP t * yV t - Nb.Y_px g * (yX t * yV t)
    = yP a * yV a - Nb.Y_px g * (yX a * yV a).
Proof.
  apply (zero_derivative_constant
           (fun s => yP s * yV s - Nb.Y_px g * (yX s * yV s))).
  intros t Ht.
  destruct (solves_at t Ht)
    as (dX & dS & dP & dV & _ & DX & _ & DP & DV & BX & BP & _).
  replace 0 with ((dP * yV t + yP t * dV)
                  - Nb.Y_px g * (dX * yV t + yX t * dV)).
  - apply (derivable_pt_lim_minus (yP * yV)%F
             (mult_real_fct (Nb.Y_px g) (yX * yV)%F)).
    + apply derivable_pt_lim_mult; assumption.
    + apply derivable_pt_lim_scal, derivable_pt_lim_mult; assumption.
  - replace (dP * yV t + yP t * dV) with (yV t * dP + dV * yP t) by ring.
    replace (dX * yV t + yX t * dV) with (yV t * dX + dV * yX t) by ring.
    rewrite BP, BX. ring.
Qed.

Lemma substrate_equivalents_fed :
  forall t, a <= t <= b ->
    yS t * yV t + 1 / Nb.Y_xs g * (yX t * yV t) - Nb.F g * Nb.S_f g * t
    = yS a * yV a + 1 / Nb.Y_xs g * (yX a * yV a) - Nb.F g * Nb.S_f g * a.
Proof.
  apply (zero_derivative_constant
           (fun s => yS s * yV s + 1 / Nb.Y_xs g * (yX s * yV s)
                     - Nb.F g * Nb.S_f g * s)).
  intros t Ht.
  destruct (solves_at t Ht)
    as (dX & dS & dP & dV & (_ & HK & HY) & DX & DS & _ & DV & BX & _ & BS).
  replace 0 with ((dS * yV t + yS t * dV)
                  + 1 / Nb.Y_xs g * (dX * yV t + yX t * dV)
                  - Nb.F g * Nb.S_f g).
  - apply (derivable_pt_lim_minus
             ((yS * yV) + mult_real_fct (1 / Nb.Y_xs g) (yX * yV))%F
             (fun s => Nb.F g * Nb.S_f g * s)).
    + apply derivable_pt_lim_plus.
      * apply derivable_pt_lim_mult; assumption.
      * apply derivable_pt_lim_scal, derivable_pt_lim_mult; assumption.
    + apply linear_derivative.
  - replace (dS * yV t + yS t * dV) with (yV t * dS + dV * yS t) by ring.
    replace (dX * yV t + yX t * dV) with (yV t * dX + dV * yX t) by ring.
    rewrite BS, BX. field. split; assumption.
Qed.

End Amounts.

(** X5.  Along every trajectory of the model, whatever the feed, the amount
    of product less [Y_px] times the amount of biomass, [P V - Y_px X V],
    keeps its initial value. *)
Theorem product_follows_biomass
  (g : Nb.globals) (a b : R) (yX yS yP yV : R -> R) :
  solves g a b yX yS yP yV ->
  forall t, a <= t <= b ->
    yP t * yV t - yP a * yV a = Nb.Y_px g * (yX t * yV t - yX a * yV a).
Proof.
  intros sol t Ht.
  assert (H := product_minus_yield_constant g a b yX yS yP yV sol t Ht). lra.
Qed.

(** Ten hours of exponential growth in the closed reactor: biomass and
    product both grow, the product by a fifth of the biomass. *)
Lemma product_follows_biomass_witness :
  solves unsaturated_batch 0 10 batch_X batch_S batch_P batch_V /\
  batch_P 10 * batch_V 10 - batch_P 0 * batch_V 0
  = 0.2 * (batch_X 10 * batch_V 10 - batch_X 0 * batch_V 0) /\
  batch_X 0 * batch_V 0 < batch_X 10 * batch_V 10.
Proof.
  split; [exact unsaturated_batch_solves|]. split.
  - apply (product_follows_biomass unsaturated_batch 0 10 _ _ _ _
             unsaturated_batch_solves 10). lra.
  - unfold batch_X, batch_V. rewrite Rmult_0_r.
    assert (H : exp 0 < exp (0.2 * 10)) by (apply exp_increasing; lra).
    lra.
Defined.

(** X6.  Along every trajectory of the model the amount of substrate plus
    the substrate bound in biomass, [S V + X V / Y_xs], grows by exactly
    what the feed brings in: [F S_f (t - a)]. *)
Theorem substrate_balance
  (g : Nb.globals) (a b : R) (yX yS yP yV : R -> R) :
  solves g a b yX yS yP yV ->
  forall t, a <= t <= b ->
    yS t * yV t + 1 / Nb.Y_xs g * (yX t * yV t)
    = yS a * yV a + 1 / Nb.Y_xs g * (yX a * yV a)
      + Nb.F g * Nb.S_f g * (t - a).
Proof.
  intros sol t Ht.
  assert (H := substrate_equivalents_fed g a b yX yS yP yV sol t Ht). lra.
Qed.

(** Filling with feed only: 10 g/L in 1 L become 10 g/L in 2.5 L, the
    15 g in between being the 0.05 L/h of feed at 10 g/L over 30 h. *)
Lemma substrate_balance_witness :
  solves Nb.notebook 0 30 (fun _ => 0) (fun _ => 10) (fun _ => 0)
         (fun s => 1 + 0.05 * s) /\
  10 * (1 + 0.05 * 30) + 1 / Nb.Y_xs Nb.notebook * (0 * (1 + 0.05 * 30))
  = 10 * (1 + 0.05 * 0) + 1 / Nb.Y_xs Nb.notebook * (0 * (1 + 0.05 * 0))
    + Nb.F Nb.notebook * Nb.S_f Nb.notebook * (30 - 0).
Proof.
  assert (sol := sterile_filling_solves 30 ltac:(lra)).
  split; [exact sol|].
  apply (substrate_balance Nb.notebook 0 30 _ _ _ _ sol 30). lra.
Defined.

(** ** What the sweep leaves, in general *)

Lemma rebound_self (g : Nb.globals) :
  rebound (Nb.F g) (Nb.results g) (Nb.out g) g = g.
Proof. destruct g. reflexivity. Qed.

Lemma turns_rebound (vs : list R) :
  forall os h,
    turns h vs os =
    rebound (Nb.F (turns h vs os)) (Nb.results (turns h vs os))
            (Nb.out (turns h vs os)) h.
Proof.
  unfold turns. intros os. generalize (combine vs os) as l. clear.
  induction l as [|vo l IH]; intros h; simpl.
  - symmetry. apply rebound_self.
  - rewrite (IH (turn h vo)) at 1. reflexivity.
Qed.

Lemma last_idem {A} (l : list A) (d : A) : last l (last l d) = last l d.
Proof.
  destruct l as [|x l]; [reflexivity|]. apply last_default.
Qed.

(** X7.  Whether the sweep returns or raises, the namespace it leaves
    differs from the one it found in [F], [results] and [out] only;
    [results] has grown by what the solver returned, in their order, for
    the scenarios whose solver call returned: all of them after a return,
    those before the raising one after an exception; and [out] is the last
    of these results (or what it was, if there is none).  After a return
    [F] is the last scenario, or what it was when [Fs] is empty; after an
    exception [F] is the scenario whose solver call raised. *)
Theorem sweep_leaves
  (solve_ivp : (R -> list R -> result (list R)) -> list R -> list R ->
               list R -> result OdeResult)
  (g : Nb.globals) :
  let r := fst (Nb.sweep solve_ivp g) in
  let g' := snd (Nb.sweep solve_ivp g) in
  g' = rebound (Nb.F g') (Nb.results g') (Nb.out g') g /\
  exists os,
    Nb.results g' = Nb.results g ++ os /\
    Nb.out g' = last (map Some os) (Nb.out g) /\
    match r with
    | Ok _ =>
        Forall2 (fun v o => Nb.integrate solve_ivp (Nb.bind_F v g) = Ok o)
                (Nb.Fs g) os /\
        length os = length (Nb.Fs g) /\ Nb.F g' = last (Nb.Fs g) (Nb.F g)
    | Raise e =>
        exists l1 v l2,
          Nb.Fs g = l1 ++ v :: l2 /\
          Forall2 (fun v o => Nb.integrate solve_ivp (Nb.bind_F v g) = Ok o)
                  l1 os /\
          length os = length l1 /\ Nb.F g' = v /\
          Nb.integrate solve_ivp (Nb.bind_F v g) = Raise e
    end.
Proof.
  cbv zeta.
  destruct (sweep_outcome solve_ivp g)
    as [(os & HF & E)|(l1 & v & l2 & os & e & Hl & HF & Hr & E)];
    rewrite E; cbn [fst snd]; assert (Hlen := Forall2_length HF).
  - split; [apply turns_rebound|]. exists os.
    split; [apply results_turns; exact Hlen|].
    split; [apply out_turns; exact Hlen|].
    split; [exact HF|].
    split; [symmetry; exact Hlen|apply F_turns; exact Hlen].
  - split.
    + rewrite (turns_rebound l1 os g) at 1. reflexivity.
    + exists os. split; [apply (results_turns l1 os g Hlen)|].
      split; [apply (out_turns l1 os g Hlen)|].
      exists l1, v, l2.
      split; [exact Hl|]. split; [exact HF|].
      split; [symmetry; exact Hlen|]. split; [reflexivity|exact Hr].
Qed.

Lemma answers_same_setup
  (solve_ivp : (R -> list R -> result (list R)) -> list R -> list R ->
               list R -> result OdeResult)
  (g h : Nb.globals) (l : list R) (os : list OdeResult) :
  same_setup g h ->
  Forall2 (answer solve_ivp g) l os -> Forall2 (answer solve_ivp h) l os.
Proof.
  intros Hs HF. induction HF; constructor; try assumption.
  apply (answer_same_setup solve_ivp g h _ _ Hs). assumption.
Qed.

(** X8.  The sweep can be run again: when it has returned, running it once
    more from the namespace it left returns too, appends the same results a
    second time, and leaves [F] and [out] as they were. *)
Theorem sweep_again
  (solve_ivp : (R -> list R -> result (list R)) -> list R -> list R ->
               list R -> result OdeResult)
  (g g' : Nb.globals) :
  Nb.sweep solve_ivp g = (Ok tt, g') ->
  exists os g'',
    Nb.results g' = Nb.results g ++ os /\
    length os = length (Nb.Fs g) /\
    Nb.sweep solve_ivp g' = (Ok tt, g'') /\
    Nb.results g'' = Nb.results g ++ os ++ os /\
    Nb.F g'' = Nb.F g' /\ Nb.out g'' = Nb.out g'.
Proof.
  intros E. destruct (sweep_returned solve_ivp g g' E) as (os & HF & ->).
  assert (Hlen := Forall2_length HF).
  set (g1 := turns g (Nb.Fs g) os).
  assert (HFs : Nb.Fs g1 = Nb.Fs g) by apply Fs_turns.
  assert (Hs : same_setup g g1) by apply same_setup_turns, same_setup_refl.
  assert (HF1 : Forall2 (answer solve_ivp g1) (Nb.Fs g1) os).
  { rewrite HFs. apply (answers_same_setup solve_ivp g g1 _ _ Hs HF). }
  exists os, (turns g1 (Nb.Fs g1) os).
  split; [apply results_turns; exact Hlen|].
  split; [symmetry; exact Hlen|].
  split; [apply sweep_returns; exact HF1|].
  rewrite HFs.
  split; [rewrite results_turns by exact Hlen; unfold g1;
          rewrite results_turns by exact Hlen; symmetry; apply app_assoc|].
  split.
  - rewrite F_turns by exact Hlen. unfold g1.
    rewrite F_turns by exact Hlen. apply last_idem.
  - rewrite out_turns by exact Hlen. unfold g1.
    rewrite out_turns by exact Hlen. apply last_idem.
Qed.

Lemma sweep_again_witness :
  exists g' g'',
    Nb.sweep one_step_solver Nb.notebook = (Ok tt, g') /\
    Nb.sweep one_step_solver g' = (Ok tt, g'') /\
    length (Nb.results g'') = 4%nat.
Proof.
  destruct one_step_notebook_returns as (o1 & o2 & _ & E).
  destruct (sweep_again one_step_solver _ _ E)
    as (os & g'' & _ & Hlen & E' & Hres & _).
  eexists. exists g''. split; [exact E|]. split; [exact E'|].
  rewrite Hres. simpl. rewrite length_app, Hlen. reflexivity.
Defined.

(** ** The plotting cell *)

Lemma plot_same_length (x y : list R) (a : Axes) :
  length y = length x -> plot x y a = Some (add_line x y a).
Proof. intros H. unfold plot. rewrite H, Nat.eqb_refl. reflexivity. Qed.

Lemma plot_other_length (x y : list R) (a : Axes) :
  length y <> length x -> plot x y a = None.
Proof.
  intros H. unfold plot.
  destruct (Nat.eqb_spec (length x) (length y)) as [E|E];
    [congruence|reflexivity].
Qed.

(** Runs the inner loop on a [var] whose items are known; the calls of
    [plot] are left to be decided. *)
Ltac run_draw :=
  cbv [combine names dict_of fold_left fst snd dict_set String.eqb Ascii.eqb
       Bool.eqb draw_names draw_name dict_get ax units ns var name fig
       nth].

Ltac run_plots :=
  repeat (rewrite plot_same_length by assumption; cbv beta iota).

Lemma plottable_rows (o : OdeResult) (i : nat) :
  plottable o -> (i < 4)%nat -> (i < length (sol_y o))%nat ->
  length (nth i (sol_y o) []) = length (sol_t o).
Proof.
  unfold plottable. intros H Hi Hl. rewrite Forall_forall in H. apply H.
  rewrite <- (firstn_skipn 4 (sol_y o)) at 1.
  assert (L : (i < length (firstn 4 (sol_y o)))%nat)
    by (rewrite length_firstn; lia).
  rewrite app_nth1 by exact L. apply nth_In. exact L.
Qed.

Lemma draw_result_four (vo : R * OdeResult) (s : plotting) :
  (4 <= length (sol_y (snd vo)))%nat -> plottable (snd vo) ->
  draw_result vo s =
  (Done tt,
   {| ns := bind_F_out (fst vo) (snd vo) (ns s);
      var := Some (dict_of (combine names (sol_y (snd vo))));
      name := Some "V"%str;
      fig := show_result (snd vo) (fig s) |}).
Proof.
  destruct vo as [v o]. cbn [fst snd]. intros H Hp.
  assert (H0 := plottable_rows o 0 Hp ltac:(lia) ltac:(lia)).
  assert (H1 := plottable_rows o 1 Hp ltac:(lia) ltac:(lia)).
  assert (H2 := plottable_rows o 2 Hp ltac:(lia) ltac:(lia)).
  assert (H3 := plottable_rows o 3 Hp ltac:(lia) ltac:(lia)).
  unfold draw_result, show_result, show. cbn [fst snd].
  destruct (sol_y o) as [|r0 [|r1 [|r2 [|r3 rest]]]]; simpl in H; try lia.
  cbn [nth] in H0, H1, H2, H3.
  run_draw. run_plots. reflexivity.
Qed.

Lemma draw_results_four (l : list (R * OdeResult)) :
  Forall (fun vo => drawable (snd vo)) l ->
  forall s, exists s',
    draw_results l s = (Done tt, s') /\
    ns s' = fold_left (fun g vo => bind_F_out (fst vo) (snd vo) g) l (ns s) /\
    fig s' = fold_left (fun f vo => show_result (snd vo) f) l (fig s).
Proof.
  induction 1 as [|vo l [Hvo Hp] _ IH]; intros s.
  - exists s. repeat split.
  - cbn [draw_results]. rewrite (draw_result_four vo s Hvo Hp).
    destruct (IH {| ns := bind_F_out (fst vo) (snd vo) (ns s);
                    var := Some (dict_of (combine names (sol_y (snd vo))));
                    name := Some "V"%str;
                    fig := show_result (snd vo) (fig s) |})
      as (s' & E & Hns & Hfig).
    exists s'. split; [exact E|]. split; assumption.
Qed.

Lemma shown_lines (l : list (R * OdeResult)) :
  forall f,
    let f' := fold_left (fun f vo => show_result (snd vo) f) l f in
    lines (at_upper_left f') = lines (at_upper_left f) ++ map (line_of 0) (map snd l) /\
    lines (at_upper_right f') = lines (at_upper_right f) ++ map (line_of 2) (map snd l) /\
    lines (at_lower_left f') = lines (at_lower_left f) ++ map (line_of 1) (map snd l) /\
    lines (at_lower_right f') = lines (at_lower_right f) ++ map (line_of 3) (map snd l).
Proof.
  induction l as [|vo l IH]; intros f; cbv zeta.
  - simpl. rewrite !app_nil_r. repeat split.
  - cbn [fold_left map]. destruct (IH (show_result (snd vo) f)) as (A & B & C & D).
    rewrite A, B, C, D. simpl. rewrite <- !app_assoc. repeat split.
Qed.



Lemma snd_combine {A B} (l1 : list A) :
  forall l2 : list B, map snd (combine l1 l2) = firstn (length l1) l2.
Proof.
  induction l1 as [|a l1 IH]; intros [|b l2]; simpl; try reflexivity.
  rewrite IH. reflexivity.
Qed.


Lemma plot_cell_four (g : Nb.globals) :
  Forall drawable (firstn (length (Nb.Fs g)) (Nb.results g)) ->
  exists s,
    plot_cell g = (Done tt, s) /\
    ns s = fold_left (fun g vo => bind_F_out (fst vo) (snd vo) g) (zipped g) g /\
    fig s = fold_left (fun f vo => show_result (snd vo) f) (zipped g) subplots_2_2.
Proof.
  intros H.
  assert (H' : Forall (fun vo => drawable (snd vo)) (zipped g)).
  { apply Forall_forall. intros vo Hin. rewrite Forall_forall in H. apply H.
    rewrite <- snd_combine. apply in_map. exact Hin. }
  destruct (draw_results_four _ H'
              {| ns := g; var := None; name := None; fig := subplots_2_2 |})
    as (s & E & Hns & Hfig).
  exists s. split; [exact E|]. split; assumption.
Qed.

(** X10.  When each of the results paired with a feed rate by
    [zip(Fs, results)] has at least four rows in [y] and its first four
    rows have the length of its [t], the plotting cell returns, and each
    panel holds one line per pair, in the order of
    [results], drawn against the result's [t]: the upper left panel shows
    row 0 ([X]), the upper right row 2 ([P]), the lower left row 1 ([S]) and
    the lower right row 3 ([V]).  Results beyond the length of [Fs] are not
    drawn. *)
Theorem plot_cell_draws (g : Nb.globals) :
  let shown := firstn (length (Nb.Fs g)) (Nb.results g) in
  Forall drawable shown ->
  exists s,
    plot_cell g = (Done tt, s) /\
    lines (at_upper_left (fig s)) = map (line_of 0) shown /\
    lines (at_upper_right (fig s)) = map (line_of 2) shown /\
    lines (at_lower_left (fig s)) = map (line_of 1) shown /\
    lines (at_lower_right (fig s)) = map (line_of 3) shown.
Proof.
  cbv zeta. intros H. destruct (plot_cell_four g H) as (s & E & _ & Hfig).
  exists s. split; [exact E|]. rewrite Hfig.
  destruct (shown_lines (zipped g) subplots_2_2) as (A & B & C & D).
  cbv zeta in A, B, C, D. rewrite A, B, C, D.
  unfold zipped. rewrite snd_combine. simpl. repeat split.
Qed.

Lemma plot_cell_draws_witness :
  let o := {| sol_t := [0; 30];
              sol_y := [[0.05; 1]; [10; 0]; [0; 2]; [1; 2.5]];
              status := 0%Z; success := true |} in
  exists s,
    plot_cell (rebound 0.02 [o; o; o] (Some o) Nb.notebook) = (Done tt, s) /\
    lines (at_lower_right (fig s)) = [([0; 30], [1; 2.5]); ([0; 30], [1; 2.5])].
Proof.
  cbv zeta.
  destruct (plot_cell_draws
              (rebound 0.02
                 (let o := {| sol_t := [0; 30];
                              sol_y := [[0.05; 1]; [10; 0]; [0; 2]; [1; 2.5]];
                              status := 0%Z; success := true |} in [o; o; o])
                 (Some {| sol_t := [0; 30];
                          sol_y := [[0.05; 1]; [10; 0]; [0; 2]; [1; 2.5]];
                          status := 0%Z; success := true |})
                 Nb.notebook))
    as (s & E & _ & _ & _ & HV).
  { simpl. unfold drawable, plottable. simpl. repeat constructor. }
  exists s. split; [exact E|]. rewrite HV. reflexivity.
Defined.



(** ** A result with too few rows *)

Lemma draw_results_app (l1 l2 : list (R * OdeResult)) :
  forall s s1,
    draw_results l1 s = (Done tt, s1) ->
    draw_results (l1 ++ l2) s = draw_results l2 s1.
Proof.
  induction l1 as [|vo l1 IH]; intros s s1 E.
  - simpl in E. injection E as <-. reflexivity.
  - cbn [draw_results app] in *.
    destruct (draw_result vo s) as [[[]|k|nx ny] s'']; try discriminate.
    apply IH. exact E.
Qed.

Lemma draw_result_short (v : R) (o : OdeResult) (s : plotting) :
  (length (sol_y o) < 4)%nat -> plottable o ->
  exists s',
    draw_result (v, o) s = (KeyError (nth (length (sol_y o)) names ""%str), s') /\
    ns s' = bind_F_out v o (ns s) /\
    forall i n p,
      nth_error names i = Some n -> dict_get n ax = Some p ->
      lines (axes_of p (fig s')) =
      lines (axes_of p (fig s)) ++
      (if (i <? length (sol_y o))%nat then [line_of i o] else []).
Proof.
  intros H Hrows.
  assert (H0 := fun L => plottable_rows o 0 Hrows ltac:(lia) L).
  assert (H1 := fun L => plottable_rows o 1 Hrows ltac:(lia) L).
  assert (H2 := fun L => plottable_rows o 2 Hrows ltac:(lia) L).
  unfold draw_result, line_of. cbn [fst snd].
  destruct (sol_y o) as [|r0 [|r1 [|r2 [|r3 rest]]]];
    [| | | |exfalso; cbn [length] in H; lia].
  all: cbn [length nth] in H0, H1, H2.
  all: try (specialize (H0 ltac:(lia))).
  all: try (specialize (H1 ltac:(lia))).
  all: try (specialize (H2 ltac:(lia))).
  all: eexists; split; [run_draw; run_plots; reflexivity|]; split; [reflexivity|].
  all: intros i n p Hn Hp.
  all: destruct i as [|[|[|[|i]]]]; cbn [nth_error names] in Hn;
    [| | | |destruct i; discriminate].
  all: injection Hn as <-;
    cbv [dict_get ax dict_set String.eqb Ascii.eqb Bool.eqb] in Hp;
    injection Hp as <-.
  all: cbn [fig lines axes_of on_axes add_line set_ylabel set_xlabel
            at_upper_left at_upper_right at_lower_left at_lower_right
            Nat.ltb Nat.leb length nth].
  all: rewrite ?app_nil_r; reflexivity.
Qed.

(** X12.  When the rows that are drawn have the length of their result's
    [t] and the first result that has fewer than four rows has [m] of them,
    the plotting cell stops with [KeyError] on the [m]-th name
    (counting from 0), at [var[name]]: the results before it are drawn in
    full, of the short result the panels of the first [m] names have got
    their line and the others have not, later results are not drawn, and
    [F] and [out] are left bound to the pair of the short result. *)
Theorem plot_cell_short_result
  (g : Nb.globals) (pre post : list (R * OdeResult)) (v : R) (o : OdeResult) :
  zipped g = pre ++ (v, o) :: post ->
  Forall (fun vo => drawable (snd vo)) pre ->
  (length (sol_y o) < 4)%nat -> plottable o ->
  exists s,
    plot_cell g = (KeyError (nth (length (sol_y o)) names ""%str), s) /\
    Nb.F (ns s) = v /\ Nb.out (ns s) = Some o /\
    forall i n p,
      nth_error names i = Some n -> dict_get n ax = Some p ->
      lines (axes_of p (fig s)) =
      map (line_of i) (map snd pre) ++
      (if (i <? length (sol_y o))%nat then [line_of i o] else []).
Proof.
  intros Hz Hpre Hshort Hrows. unfold plot_cell. fold (zipped g). rewrite Hz.
  destruct (draw_results_four pre Hpre
              {| ns := g; var := None; name := None; fig := subplots_2_2 |})
    as (s1 & E1 & _ & Hfig).
  rewrite (draw_results_app pre _ _ _ E1). cbn [draw_results].
  destruct (draw_result_short v o s1 Hshort Hrows) as (s' & E & Hns & Hlines).
  rewrite E. exists s'. split; [reflexivity|].
  rewrite Hns. split; [reflexivity|]. split; [reflexivity|].
  intros i n p Hn Hp. rewrite (Hlines i n p Hn Hp). f_equal.
  rewrite Hfig.
  destruct (shown_lines pre subplots_2_2) as (A & B & C & D). cbv zeta in A, B, C, D.
  destruct i as [|[|[|[|i]]]]; simpl in Hn;
    [| | | |destruct i; discriminate];
    injection Hn as <-; simpl in Hp; injection Hp as <-; simpl;
    [rewrite A|rewrite C|rewrite B|rewrite D]; reflexivity.
Qed.

(** A result of the right shape, then one whose [y] has only the rows of
    [X] and [S]: the cell stops at ["P"] with two lines in the upper left
    panel and one in the upper right. *)
Lemma plot_cell_short_result_witness :
  let o4 := {| sol_t := [0; 30];
               sol_y := [[0.05; 1]; [10; 0]; [0; 2]; [1; 2.5]];
               status := 0%Z; success := true |} in
  let o2 := {| sol_t := [0; 30]; sol_y := [[0.05; 1]; [10; 0]];
               status := 0%Z; success := true |} in
  exists s,
    plot_cell (rebound 0.02 [o4; o2] (Some o2) Nb.notebook) = (KeyError "P"%str, s) /\
    Nb.F (ns s) = 0.02 /\
    length (lines (at_upper_left (fig s))) = 2%nat /\
    length (lines (at_upper_right (fig s))) = 1%nat.
Proof.
  cbv zeta.
  destruct (plot_cell_short_result
              (rebound 0.02
                 [ {| sol_t := [0; 30];
                      sol_y := [[0.05; 1]; [10; 0]; [0; 2]; [1; 2.5]];
                      status := 0%Z; success := true |};
                   {| sol_t := [0; 30]; sol_y := [[0.05; 1]; [10; 0]];
                      status := 0%Z; success := true |} ]
                 (Some {| sol_t := [0; 30]; sol_y := [[0.05; 1]; [10; 0]];
                          status := 0%Z; success := true |})
                 Nb.notebook)
              [(0.05, {| sol_t := [0; 30];
                         sol_y := [[0.05; 1]; [10; 0]; [0; 2]; [1; 2.5]];
                         status := 0%Z; success := true |})]
              []
              0.02
              {| sol_t := [0; 30]; sol_y := [[0.05; 1]; [10; 0]];
                 status := 0%Z; success := true |})
    as (s & E & HF & _ & Hl).
  { reflexivity. }
  { unfold drawable, plottable. simpl. repeat constructor. }
  { simpl. lia. }
  { unfold plottable. simpl. repeat constructor. }
  exists s. split; [exact E|]. split; [exact HF|]. split.
  - change (at_upper_left (fig s)) with (axes_of upper_left (fig s)).
    rewrite (Hl 0%nat "X"%str upper_left eq_refl eq_refl). reflexivity.
  - change (at_upper_right (fig s)) with (axes_of upper_right (fig s)).
    rewrite (Hl 2%nat "P"%str upper_right eq_refl eq_refl). reflexivity.
Defined.

(** ** A row that is not as long as [t] *)

Lemma draw_result_mismatch (v : R) (o : OdeResult) (s : plotting) (i : nat) :
  (i < 4)%nat -> (i < length (sol_y o))%nat ->
  (forall j, (j < i)%nat -> length (nth j (sol_y o) []) = length (sol_t o)) ->
  length (nth i (sol_y o) []) <> length (sol_t o) ->
  exists s',
    draw_result (v, o) s =
      (PlotValueError (length (sol_t o)) (length (nth i (sol_y o) [])), s') /\
    ns s' = bind_F_out v o (ns s) /\
    forall j n p,
      nth_error names j = Some n -> dict_get n ax = Some p ->
      lines (axes_of p (fig s')) =
      lines (axes_of p (fig s)) ++
      (if (j <? i)%nat then [line_of j o] else []).
Proof.
  intros Hi Hl Hbefore Hbad.
  assert (H0 := fun L : (0 < i)%nat => Hbefore 0%nat L).
  assert (H1 := fun L : (1 < i)%nat => Hbefore 1%nat L).
  assert (H2 := fun L : (2 < i)%nat => Hbefore 2%nat L).
  clear Hbefore.
  unfold draw_result, line_of. cbn [fst snd].
  destruct (sol_y o) as [|r0 [|r1 [|r2 [|r3 rest]]]]; cbn [length] in Hl;
    destruct i as [|[|[|[|i]]]]; try (exfalso; lia).
  all: cbn [nth] in H0, H1, H2, Hbad.
  all: try (specialize (H0 ltac:(lia))).
  all: try (specialize (H1 ltac:(lia))).
  all: try (specialize (H2 ltac:(lia))).
  all: eexists; split;
    [run_draw; run_plots; rewrite plot_other_length by assumption; reflexivity|];
    split; [reflexivity|].
  all: intros j n p Hn Hp.
  all: destruct j as [|[|[|[|j]]]]; cbn [nth_error names] in Hn;
    [| | | |destruct j; discriminate].
  all: injection Hn as <-;
    cbv [dict_get ax dict_set String.eqb Ascii.eqb Bool.eqb] in Hp;
    injection Hp as <-.
  all: cbn [fig lines axes_of on_axes add_line set_ylabel set_xlabel
            at_upper_left at_upper_right at_lower_left at_lower_right
            Nat.ltb Nat.leb length nth].
  all: rewrite ?app_nil_r; reflexivity.
Qed.

(** X15.  When, among the results that the plotting cell draws, the first
    row that is not as long as its result's [t] is row [i] of a result
    (the results before being drawable in full), the cell stops with the
    [ValueError] of that call of [plot]: the results before are drawn in
    full, of this result the panels of the first [i] names have got their
    line and the others have not, later results are not drawn, and [F] and
    [out] are left bound to the pair of this result. *)
Theorem plot_cell_mismatch
  (g : Nb.globals) (pre post : list (R * OdeResult)) (v : R) (o : OdeResult)
  (i : nat) :
  zipped g = pre ++ (v, o) :: post ->
  Forall (fun vo => drawable (snd vo)) pre ->
  (i < 4)%nat -> (i < length (sol_y o))%nat ->
  (forall j, (j < i)%nat -> length (nth j (sol_y o) []) = length (sol_t o)) ->
  length (nth i (sol_y o) []) <> length (sol_t o) ->
  exists s,
    plot_cell g =
      (PlotValueError (length (sol_t o)) (length (nth i (sol_y o) [])), s) /\
    Nb.F (ns s) = v /\ Nb.out (ns s) = Some o /\
    forall j n p,
      nth_error names j = Some n -> dict_get n ax = Some p ->
      lines (axes_of p (fig s)) =
      map (line_of j) (map snd pre) ++
      (if (j <? i)%nat then [line_of j o] else []).
Proof.
  intros Hz Hpre Hi Hl Hbefore Hbad. unfold plot_cell. fold (zipped g).
  rewrite Hz.
  destruct (draw_results_four pre Hpre
              {| ns := g; var := None; name := None; fig := subplots_2_2 |})
    as (s1 & E1 & _ & Hfig).
  rewrite (draw_results_app pre _ _ _ E1). cbn [draw_results].
  destruct (draw_result_mismatch v o s1 i Hi Hl Hbefore Hbad)
    as (s' & E & Hns & Hlines).
  rewrite E. exists s'. split; [reflexivity|].
  rewrite Hns. split; [reflexivity|]. split; [reflexivity|].
  intros j n p Hn Hp. rewrite (Hlines j n p Hn Hp). f_equal.
  rewrite Hfig.
  destruct (shown_lines pre subplots_2_2) as (A & B & C & D). cbv zeta in A, B, C, D.
  destruct j as [|[|[|[|j]]]]; simpl in Hn;
    [| | | |destruct j; discriminate];
    injection Hn as <-; simpl in Hp; injection Hp as <-; simpl;
    [rewrite A|rewrite C|rewrite B|rewrite D]; reflexivity.
Qed.

(** Two results whose rows have three entries against two times: the cell
    stops at the first call of [plot], with nothing drawn and no label set,
    and [F] and [out] at the first pair. *)
Lemma plot_cell_mismatch_witness :
  let o := {| sol_t := [0; 30];
              sol_y := [[0.05; 1; 2]; [10; 0; 0]; [0; 2; 3]; [1; 2.5; 3]];
              status := 0%Z; success := true |} in
  exists s,
    plot_cell (rebound 0.02 [o; o] (Some o) Nb.notebook)
      = (PlotValueError 2 3, s) /\
    Nb.F (ns s) = 0.05 /\ Nb.out (ns s) = Some o /\
    lines (at_upper_left (fig s)) = [].
Proof.
  cbv zeta.
  destruct (plot_cell_mismatch
              (rebound 0.02
                 (let o := {| sol_t := [0; 30];
                              sol_y := [[0.05; 1; 2]; [10; 0; 0]; [0; 2; 3];
                                        [1; 2.5; 3]];
                              status := 0%Z; success := true |} in [o; o])
                 (Some {| sol_t := [0; 30];
                          sol_y := [[0.05; 1; 2]; [10; 0; 0]; [0; 2; 3];
                                    [1; 2.5; 3]];
                          status := 0%Z; success := true |})
                 Nb.notebook)
              []
              [(0.02, {| sol_t := [0; 30];
                         sol_y := [[0.05; 1; 2]; [10; 0; 0]; [0; 2; 3];
                                   [1; 2.5; 3]];
                         status := 0%Z; success := true |})]
              0.05
              {| sol_t := [0; 30];
                 sol_y := [[0.05; 1; 2]; [10; 0; 0]; [0; 2; 3]; [1; 2.5; 3]];
                 status := 0%Z; success := true |}
              0%nat)
    as (s & E & HF & Ho & Hl).
  { reflexivity. }
  { constructor. }
  { lia. }
  { simpl. lia. }
  { intros j Hj. lia. }
  { simpl. discriminate. }
  exists s. split; [exact E|]. split; [exact HF|]. split; [exact Ho|].
  change (at_upper_left (fig s)) with (axes_of upper_left (fig s)).
  rewrite (Hl 0%nat "X"%str upper_left eq_refl eq_refl). reflexivity.
Defined.

(** ** The loop variables of the plotting cell *)



(** ** The sweep, then the plotting cell *)




